(** * The video generation module: audio analysis wrapper, video muxing,
      thumbnail extraction and thumbnail enhancement.

    The module is a sequence of awaited effects wrapped in [try]/[catch].
    It is embedded as a program over an event signature (one event per
    awaited operation), interpreted over an explicit world that holds the
    temporary directory's files, the number of clock readings taken so far
    and the console log.

    Components the module imports but which are not part of it (the audio
    analyser of [./audioProcessor], [createVisualizer] of [./visualizer],
    the [fluent-ffmpeg] encoder and screenshot commands) are fields of an
    environment record: each maps a world to a fulfilled, rejected or
    forever-pending outcome.

    The source both imports [processAudio] from [./audioProcessor] and
    exports a function of that name; the call made inside the exported
    function is read as the call to the imported analyser, which is named
    [ImportedProcessAudio] below. *)

From Stdlib Require Import ZArith QArith Qminmax Qabs String Ascii List Lia.
From Stdlib Require Import DecimalString DecimalZ Sorted.
From stdpp Require Import base strings gmap.

Local Open Scope string_scope.
Local Open Scope Z_scope.

(** ** Values *)

(** A Node [Buffer]. *)
Abbreviation Buffer := (list Byte.byte).

#[global] Instance byte_eq_decision : EqDecision Byte.byte := Byte.byte_eq_dec.

(** A thrown JavaScript [Error]: its class name and its [message]. *)
Record JsError : Type := mkError {
  err_name : string;
  err_message : string
}.

(** The object returned by the audio analyser; times are in seconds. *)
Record AudioAnalysis : Type := mkAnalysis {
  bpm : Q;
  beats : list Q;
  duration : Q;
  waveform : list Q
}.

(** The value stored under an effect name in the [effects] object. *)
Inductive EffectSetting : Type :=
| Enabled (on : bool)
| Intensity (level : Q).

(** The [effects] object: effect name to setting; [{}] is the empty map. *)
Abbreviation Effects := (gmap string EffectSetting).

(** The command assembled on the [ffmpeg()] builder before [.run()]. *)
Record FfmpegCommand : Type := mkCommand {
  inputs : list string;
  outputOptions : list string;
  output : string
}.

(** The argument of [.screenshots({...})]. *)
Record ScreenshotOptions : Type := mkScreenshots {
  timestamps : list string;
  filename : string;
  folder : string;
  size : string
}.

(** The objects the four exported functions return. An absent property is
    [None]. *)
Record ProcessAudioResult : Type := mkProcessAudioResult {
  pa_success : bool;
  pa_bpm : option Q;
  pa_beats : option (list Q);
  pa_duration : option Q;
  pa_waveform : option (list Q);
  pa_error : option string
}.

Record GenerateVideoResult : Type := mkGenerateVideoResult {
  gv_success : bool;
  gv_videoBuffer : option Buffer;
  gv_error : option string
}.

Record ThumbnailResult : Type := mkThumbnailResult {
  th_success : bool;
  th_thumbnailBuffer : option Buffer;
  th_error : option string
}.

(** ** The world and the outcome of an awaited operation *)

Record World : Type := mkWorld {
  files : gmap string Buffer;
  ticks : nat;
  console : list (string * JsError)
}.

Definition with_files (f : gmap string Buffer) (w : World) : World :=
  {| files := f; ticks := ticks w; console := console w |}.

Definition with_tick (w : World) : World :=
  {| files := files w; ticks := S (ticks w); console := console w |}.

Definition with_log (label : string) (e : JsError) (w : World) : World :=
  {| files := files w; ticks := ticks w;
     console := console w ++ [(label, e)] |}.

(** A promise is fulfilled, rejected, or never settles. *)
Inductive Outcome (X : Type) : Type :=
| Fulfilled (x : X) (w : World)
| Rejected (e : JsError) (w : World)
| Pending (w : World).

Arguments Fulfilled {X} x w.
Arguments Rejected {X} e w.
Arguments Pending {X} w.

(** ** Events: the operations the module awaits *)

Inductive Ev : Type -> Type :=
| OsTmpdir : Ev string
| DateNow : Ev Z
| FsWriteFile (p : string) (data : Buffer) : Ev unit
| FsReadFile (p : string) : Ev Buffer
| FsUnlink (p : string) : Ev unit
| ImportedProcessAudio (p : string) : Ev AudioAnalysis
| CreateVisualizer (analysis : AudioAnalysis) (images : list Buffer)
    (effects : Effects) (title tempDir : string) : Ev string
| FfmpegRun (cmd : FfmpegCommand) : Ev unit
| FfmpegScreenshots (input : string) (opts : ScreenshotOptions) : Ev unit
| ConsoleError (label : string) (e : JsError) : Ev unit.

(** The imported components and the host. [clock n] is what the [n]-th call
    of [Date.now()] returns. *)
Record Env : Type := mkEnv {
  tmpdir : string;
  clock : nat -> Z;
  audioProcessor : string -> World -> Outcome AudioAnalysis;
  visualizer : AudioAnalysis -> list Buffer -> Effects -> string -> string ->
               World -> Outcome string;
  ffmpeg_run : FfmpegCommand -> World -> Outcome unit;
  ffmpeg_screenshots : string -> ScreenshotOptions -> World -> Outcome unit
}.

(** The error [fs] rejects with when the file is not there. *)
Definition ENOENT (syscall p : string) : JsError :=
  mkError "Error"
    ("ENOENT: no such file or directory, " +:+ syscall +:+ " '" +:+ p +:+ "'").

Definition handle (env : Env) {X : Type} (ev : Ev X) (w : World) : Outcome X :=
  match ev in Ev T return Outcome T with
  | OsTmpdir => Fulfilled (tmpdir env) w
  | DateNow => Fulfilled (clock env (ticks w)) (with_tick w)
  | FsWriteFile p data => Fulfilled tt (with_files (<[p := data]> (files w)) w)
  | FsReadFile p =>
      match files w !! p with
      | Some data => Fulfilled data w
      | None => Rejected (ENOENT "open" p) w
      end
  | FsUnlink p =>
      match files w !! p with
      | Some _ => Fulfilled tt (with_files (delete p (files w)) w)
      | None => Rejected (ENOENT "unlink" p) w
      end
  | ImportedProcessAudio p => audioProcessor env p w
  | CreateVisualizer analysis images effects title dir =>
      visualizer env analysis images effects title dir w
  | FfmpegRun cmd => ffmpeg_run env cmd w
  | FfmpegScreenshots input opts => ffmpeg_screenshots env input opts w
  | ConsoleError label e => Fulfilled tt (with_log label e w)
  end.

(** ** Programs *)

(** [Vis ev k h]: await [ev]; continue with [k] on its value and with [h] on
    the error it rejects with. *)
Inductive Prog (A : Type) : Type :=
| Ret (a : A)
| Throw (e : JsError)
| Vis {X : Type} (ev : Ev X) (k : X -> Prog A) (h : JsError -> Prog A).

Arguments Ret {A} a.
Arguments Throw {A} e.
Arguments Vis {A X} ev k h.

Definition await {X : Type} (ev : Ev X) : Prog X := Vis ev Ret Throw.

Fixpoint bind {A B : Type} (p : Prog A) (f : A -> Prog B) : Prog B :=
  match p with
  | Ret a => f a
  | Throw e => Throw e
  | Vis ev k h => Vis ev (fun x => bind (k x) f) (fun e => bind (h e) f)
  end.

(** [try { body } catch (error) { handler }] *)
Fixpoint try_catch {A : Type} (body : Prog A) (handler : JsError -> Prog A)
  : Prog A :=
  match body with
  | Ret a => Ret a
  | Throw e => handler e
  | Vis ev k h =>
      Vis ev (fun x => try_catch (k x) handler)
             (fun e => try_catch (h e) handler)
  end.

Notation "x <- p ;; q" := (bind p (fun x => q))
  (at level 100, p at next level, right associativity).
Notation "p ;;; q" := (bind p (fun _ => q))
  (at level 100, right associativity).

(** Running a program to the end of its promise. *)
Fixpoint run (env : Env) {A : Type} (p : Prog A) (w : World) : Outcome A :=
  match p with
  | Ret a => Fulfilled a w
  | Throw e => Rejected e w
  | Vis ev k h =>
      match handle env ev w with
      | Fulfilled x w' => run env (k x) w'
      | Rejected e w' => run env (h e) w'
      | Pending w' => Pending w'
      end
  end.

(** One turn of the event loop for a task: the awaited operation settles
    and the task moves to its continuation. *)
Definition step (env : Env) {A : Type} (p : Prog A) (w : World)
  : Prog A * World :=
  match p with
  | Vis ev k h =>
      match handle env ev w with
      | Fulfilled x w' => (k x, w')
      | Rejected e w' => (h e, w')
      | Pending w' => (p, w')
      end
  | _ => (p, w)
  end.

(** Two tasks on one event loop; the schedule says whose awaited operation
    settles next ([true]: the first task). *)
Fixpoint interleave (env : Env) {A B : Type} (sched : list bool)
    (p : Prog A) (q : Prog B) (w : World) : Prog A * Prog B * World :=
  match sched with
  | [] => (p, q, w)
  | true :: s =>
      let '(p', w') := step env p w in interleave env s p' q w'
  | false :: s =>
      let '(q', w') := step env q w in interleave env s p q' w'
  end.

(** ** Paths and template strings *)

(** [`${n}`] for an integer [n]. *)
Definition Z_to_string (n : Z) : string :=
  NilEmpty.string_of_int (Z.to_int n).

(** [path.join(dir, name)] for a directory without trailing separator. *)
Definition path_join (dir name : string) : string :=
  dir +:+ "/" +:+ name.

(** Splits a path at its last separator: the directory, if there is a
    separator, and the last component. *)
Fixpoint split_path (p : string) : option string * string :=
  match p with
  | EmptyString => (None, EmptyString)
  | String c rest =>
      match split_path rest with
      | (Some d, b) => (Some (String c d), b)
      | (None, b) =>
          if Ascii.eqb c "/"%char then (Some EmptyString, b)
          else (None, String c b)
      end
  end.

Definition path_basename (p : string) : string := snd (split_path p).

Definition path_dirname (p : string) : string :=
  match fst (split_path p) with
  | Some d => d
  | None => "."
  end.

(** ** The module *)

(** The builder calls of [generateVideo]: two inputs, four output options,
    one output. *)
Definition encode_command (visualizerPath audioPath outputPath : string)
  : FfmpegCommand :=
  {| inputs := [visualizerPath; audioPath];
     outputOptions := ["-c:v libx264"; "-pix_fmt yuv420p"; "-c:a aac";
                       "-shortest"];
     output := outputPath |}.

Definition screenshot_options (thumbnailPath : string) : ScreenshotOptions :=
  {| timestamps := ["50%"];
     filename := path_basename thumbnailPath;
     folder := path_dirname thumbnailPath;
     size := "1280x720" |}.

Definition processAudio_try (audioBuffer : Buffer) : Prog ProcessAudioResult :=
  tempDir <- await OsTmpdir ;;
  now <- await DateNow ;;
  let audioPath := path_join tempDir ("audio-" +:+ Z_to_string now +:+ ".mp3") in
  await (FsWriteFile audioPath audioBuffer) ;;;
  audioAnalysis <- await (ImportedProcessAudio audioPath) ;;
  await (FsUnlink audioPath) ;;;
  Ret {| pa_success := true;
         pa_bpm := Some (bpm audioAnalysis);
         pa_beats := Some (beats audioAnalysis);
         pa_duration := Some (duration audioAnalysis);
         pa_waveform := Some (waveform audioAnalysis);
         pa_error := None |}.

Definition processAudio (audioBuffer : Buffer) : Prog ProcessAudioResult :=
  try_catch (processAudio_try audioBuffer) (fun error =>
    await (ConsoleError "Error processing audio:" error) ;;;
    Ret {| pa_success := false;
           pa_bpm := None; pa_beats := None;
           pa_duration := None; pa_waveform := None;
           pa_error := Some (err_message error) |}).

Definition generateVideo_try (audioBuffer : Buffer)
    (audioAnalysis : AudioAnalysis) (imageFiles : list Buffer)
    (effects : Effects) (title : string) : Prog GenerateVideoResult :=
  tempDir <- await OsTmpdir ;;
  now <- await DateNow ;;
  let audioPath := path_join tempDir ("audio-" +:+ Z_to_string now +:+ ".mp3") in
  await (FsWriteFile audioPath audioBuffer) ;;;
  now' <- await DateNow ;;
  let outputPath := path_join tempDir ("video-" +:+ Z_to_string now' +:+ ".mp4") in
  visualizerPath <-
    await (CreateVisualizer audioAnalysis imageFiles effects title tempDir) ;;
  await (FfmpegRun (encode_command visualizerPath audioPath outputPath)) ;;;
  videoBuffer <- await (FsReadFile outputPath) ;;
  await (FsUnlink audioPath) ;;;
  await (FsUnlink visualizerPath) ;;;
  await (FsUnlink outputPath) ;;;
  Ret {| gv_success := true;
         gv_videoBuffer := Some videoBuffer;
         gv_error := None |}.

Definition generateVideo (audioBuffer : Buffer)
    (audioAnalysis : AudioAnalysis) (imageFiles : list Buffer)
    (effects : Effects) (title : string) : Prog GenerateVideoResult :=
  try_catch
    (generateVideo_try audioBuffer audioAnalysis imageFiles effects title)
    (fun error =>
      await (ConsoleError "Error generating video:" error) ;;;
      Ret {| gv_success := false;
             gv_videoBuffer := None;
             gv_error := Some (err_message error) |}).

Definition createThumbnail_try (videoBuffer : Buffer) : Prog ThumbnailResult :=
  tempDir <- await OsTmpdir ;;
  now <- await DateNow ;;
  let videoPath := path_join tempDir ("video-" +:+ Z_to_string now +:+ ".mp4") in
  await (FsWriteFile videoPath videoBuffer) ;;;
  now' <- await DateNow ;;
  let thumbnailPath :=
    path_join tempDir ("thumbnail-" +:+ Z_to_string now' +:+ ".jpg") in
  await (FfmpegScreenshots videoPath (screenshot_options thumbnailPath)) ;;;
  thumbnailBuffer <- await (FsReadFile thumbnailPath) ;;
  await (FsUnlink videoPath) ;;;
  await (FsUnlink thumbnailPath) ;;;
  Ret {| th_success := true;
         th_thumbnailBuffer := Some thumbnailBuffer;
         th_error := None |}.

Definition createThumbnail (videoBuffer : Buffer) : Prog ThumbnailResult :=
  try_catch (createThumbnail_try videoBuffer) (fun error =>
    await (ConsoleError "Error creating thumbnail:" error) ;;;
    Ret {| th_success := false;
           th_thumbnailBuffer := None;
           th_error := Some (err_message error) |}).

Definition generateEnhancedThumbnail (thumbnailBuffer : Buffer)
    (title : string) (effects : Effects) : Prog ThumbnailResult :=
  try_catch
    (Ret {| th_success := true;
            th_thumbnailBuffer := Some thumbnailBuffer;
            th_error := None |})
    (fun error =>
      await (ConsoleError "Error generating enhanced thumbnail:" error) ;;;
      Ret {| th_success := false;
             th_thumbnailBuffer := None;
             th_error := Some (err_message error) |}).

(** The steps of [generateVideo] after the encoder has ended: read the
    output back, unlink the three temporary files, return. *)
Definition generateVideo_collect (audioPath visualizerPath outputPath : string)
  : Prog GenerateVideoResult :=
  videoBuffer <- await (FsReadFile outputPath) ;;
  await (FsUnlink audioPath) ;;;
  await (FsUnlink visualizerPath) ;;;
  await (FsUnlink outputPath) ;;;
  Ret {| gv_success := true;
         gv_videoBuffer := Some videoBuffer;
         gv_error := None |}.

(** The steps of [createThumbnail] after the screenshot was taken. *)
Definition createThumbnail_collect (videoPath thumbnailPath : string)
  : Prog ThumbnailResult :=
  thumbnailBuffer <- await (FsReadFile thumbnailPath) ;;
  await (FsUnlink videoPath) ;;;
  await (FsUnlink thumbnailPath) ;;;
  Ret {| th_success := true;
         th_thumbnailBuffer := Some thumbnailBuffer;
         th_error := None |}.

(** A file name: no separator in it. *)
Definition no_separator (s : string) : Prop := split_path s = (None, s).

(** ** Outcomes and results: the predicates the statements use *)


Definition is_pending {X : Type} (o : Outcome X) : Prop :=
  match o with Pending _ => True | _ => False end.



Definition gv_shape (r : GenerateVideoResult) : Prop :=
  (gv_success r = true /\ is_Some (gv_videoBuffer r) /\ gv_error r = None)
  \/
  (gv_success r = false /\ gv_videoBuffer r = None /\ is_Some (gv_error r)).

Definition th_shape (r : ThumbnailResult) : Prop :=
  (th_success r = true /\ is_Some (th_thumbnailBuffer r) /\ th_error r = None)
  \/
  (th_success r = false /\ th_thumbnailBuffer r = None /\ is_Some (th_error r)).

(** Every value a program can return, whatever the awaited operations
    answer, satisfies [Q]. *)
Fixpoint returns_only {A : Type} (Q : A -> Prop) (p : Prog A) : Prop :=
  match p with
  | Ret a => Q a
  | Throw _ => True
  | Vis ev k h =>
      (forall x, returns_only Q (k x)) /\ (forall e, returns_only Q (h e))
  end.

(** The names a run of [generateVideo] or [createThumbnail] started in
    world [w] gives its temporary files, and the world in which the
    imported component is called. *)
Definition audio_path (env : Env) (w : World) : string :=
  path_join (tmpdir env)
    ("audio-" +:+ Z_to_string (clock env (ticks w)) +:+ ".mp3").

Definition output_path (env : Env) (w : World) : string :=
  path_join (tmpdir env)
    ("video-" +:+ Z_to_string (clock env (S (ticks w))) +:+ ".mp4").

Definition video_path (env : Env) (w : World) : string :=
  path_join (tmpdir env)
    ("video-" +:+ Z_to_string (clock env (ticks w)) +:+ ".mp4").

Definition thumbnail_path (env : Env) (w : World) : string :=
  path_join (tmpdir env)
    ("thumbnail-" +:+ Z_to_string (clock env (S (ticks w))) +:+ ".jpg").

(** The world after the input was written to [p] and the clock was read
    [n] times. *)
Definition staged (p : string) (data : Buffer) (n : nat) (w : World) : World :=
  {| files := <[p := data]> (files w);
     ticks := n + ticks w;
     console := console w |}.

(** ** Contracts of the imported components *)




(** Modelled from the spec: the encoder is an external process. Sections
    4.3 and 6: called with a video input, an audio input and the
    shortest-duration option, a run that ends without error has written
    one muxed file as long as the shorter input. *)
Definition encoder_shortest_join (media_duration : Buffer -> Q)
    (encode : FfmpegCommand -> World -> Outcome unit) : Prop :=
  forall cmd w w' u v a video audio,
    inputs cmd = [v; a] -> "-shortest" ∈ outputOptions cmd ->
    files w !! v = Some video -> files w !! a = Some audio ->
    encode cmd w = Fulfilled u w' ->
    exists muxed,
      files w' = <[output cmd := muxed]> (files w) /\
      (media_duration muxed ==
       Qmin (media_duration video) (media_duration audio))%Q.


(** How the screenshot command reads a timestamp such as ["50%"] ... *)
Fixpoint strip_percent (s : string) : option string :=
  match s with
  | EmptyString => None
  | String c EmptyString =>
      if Ascii.eqb c "%"%char then Some EmptyString else None
  | String c rest =>
      match strip_percent rest with
      | Some d => Some (String c d)
      | None => None
      end
  end.

Definition parse_percent (s : string) : option Z :=
  match strip_percent s with
  | Some d =>
      match NilEmpty.uint_of_string d with
      | Some u => Some (Z.of_uint u)
      | None => None
      end
  | None => None
  end.

(** ... and a size such as ["1280x720"]. *)
Fixpoint split_at (sep : ascii) (s : string) : option (string * string) :=
  match s with
  | EmptyString => None
  | String c rest =>
      if Ascii.eqb c sep then Some (EmptyString, rest)
      else match split_at sep rest with
           | Some (a, b) => Some (String c a, b)
           | None => None
           end
  end.

Definition parse_size (s : string) : option (Z * Z) :=
  match split_at "x"%char s with
  | Some (a, b) =>
      match NilEmpty.uint_of_string a, NilEmpty.uint_of_string b with
      | Some x, Some y => Some (Z.of_uint x, Z.of_uint y)
      | _, _ => None
      end
  | None => None
  end.


(** ** A concrete environment

    A small studio on which the statements are exercised: half a second of
    media per byte, one decodable video, four supported effects. *)

Definition supported_effects : gset string :=
  {[ "zoom"; "pulse"; "glitch"; "text_overlay" ]}.

Definition studio_analysis : AudioAnalysis :=
  mkAnalysis 120 [0; 1 # 2; 1]%Q (3 # 2) [].

Definition studio_audio : Buffer := repeat Byte.x61 15.

Definition studio_video : Buffer := repeat Byte.x76 20.

Definition studio_duration (media : Buffer) : Q :=
  Z.of_nat (length media) # 2.


Definition studio_analyser (p : string) (w : World) : Outcome AudioAnalysis :=
  match files w !! p with
  | Some (_ :: _) => Fulfilled studio_analysis w
  | Some [] => Rejected (mkError "DecodeError" "unsupported audio format") w
  | None => Rejected (ENOENT "open" p) w
  end.

Definition studio_visualizer (analysis : AudioAnalysis) (images : list Buffer)
    (effects : Effects) (title dir : string) (w : World) : Outcome string :=
  if decide (dom effects ⊆ supported_effects) then
    let p := path_join dir ("visualizer-" +:+ title +:+ ".mp4") in
    Fulfilled p (with_files (<[p := studio_video]> (files w)) w)
  else Rejected (mkError "ConfigurationError" "unknown effect name") w.

Definition studio_encoder (cmd : FfmpegCommand) (w : World) : Outcome unit :=
  match inputs cmd with
  | [v; a] =>
      match files w !! v, files w !! a with
      | Some video, Some audio =>
          let muxed :=
            if bool_decide ("-shortest" ∈ outputOptions cmd)
            then take (length video) audio
            else audio in
          Fulfilled tt (with_files (<[output cmd := muxed]> (files w)) w)
      | _, _ =>
          Rejected
            (mkError "Error"
               "ffmpeg exited with code 1: No such file or directory") w
      end
  | _ =>
      Rejected
        (mkError "Error" "ffmpeg exited with code 1: two inputs expected") w
  end.

(** Still images of the studio: the code of (percent, width, height),
    written in binary, one byte per bit. *)
Fixpoint bits_of_positive (p : positive) : Buffer :=
  match p with
  | xH => []
  | xO q => Byte.x00 :: bits_of_positive q
  | xI q => Byte.x01 :: bits_of_positive q
  end.


Definition studio_still (pct wd ht : Z) : Buffer :=
  bits_of_positive (encode (pct, wd, ht)).




Definition studio_screenshots (input : string) (opts : ScreenshotOptions)
    (w : World) : Outcome unit :=
  match files w !! input with
  | Some video =>
      if decide (video = studio_video) then
        match timestamps opts with
        | [ts] =>
            match parse_percent ts, parse_size (size opts) with
            | Some pct, Some (wd, ht) =>
                Fulfilled tt
                  (with_files
                     (<[path_join (folder opts) (filename opts) :=
                          studio_still pct wd ht]> (files w)) w)
            | _, _ => Rejected (mkError "Error" "Invalid screenshot options") w
            end
        | _ => Rejected (mkError "Error" "Invalid screenshot options") w
        end
      else
        Rejected
          (mkError "Error"
             "ffmpeg exited with code 1: Invalid data found when processing input")
          w
  | None =>
      Rejected
        (mkError "Error" "ffmpeg exited with code 1: No such file or directory")
        w
  end.

Definition studio : Env :=
  {| tmpdir := "/tmp";
     clock := fun n => 1700000000000 + Z.of_nat n;
     audioProcessor := studio_analyser;
     visualizer := studio_visualizer;
     ffmpeg_run := studio_encoder;
     ffmpeg_screenshots := studio_screenshots |}.

(** The studio with another encoder, another visualizer, another clock. *)
Definition with_encoder (encode : FfmpegCommand -> World -> Outcome unit)
    (env : Env) : Env :=
  {| tmpdir := tmpdir env; clock := clock env;
     audioProcessor := audioProcessor env; visualizer := visualizer env;
     ffmpeg_run := encode;
     ffmpeg_screenshots := ffmpeg_screenshots env |}.

Definition with_visualizer
    (render : AudioAnalysis -> list Buffer -> Effects -> string -> string ->
              World -> Outcome string) (env : Env) : Env :=
  {| tmpdir := tmpdir env; clock := clock env;
     audioProcessor := audioProcessor env; visualizer := render;
     ffmpeg_run := ffmpeg_run env;
     ffmpeg_screenshots := ffmpeg_screenshots env |}.

Definition with_clock (c : nat -> Z) (env : Env) : Env :=
  {| tmpdir := tmpdir env; clock := c;
     audioProcessor := audioProcessor env; visualizer := visualizer env;
     ffmpeg_run := ffmpeg_run env;
     ffmpeg_screenshots := ffmpeg_screenshots env |}.

(** An encoder process that never exits, and one that exits non-zero. *)
Definition stalled_encoder (cmd : FfmpegCommand) (w : World) : Outcome unit :=
  Pending w.

Definition crashing_encoder (e : JsError) (cmd : FfmpegCommand) (w : World)
  : Outcome unit :=
  Rejected e w.

Definition crashing_visualizer (e : JsError) (analysis : AudioAnalysis)
    (images : list Buffer) (effects : Effects) (title dir : string) (w : World)
  : Outcome string :=
  Rejected e w.

(** An empty temporary directory, no clock reading taken, nothing logged. *)
Definition fresh : World := mkWorld ∅ 0 [].

(** Two jobs whose clock readings fall in the same millisecond. *)
Definition same_millisecond : Env :=
  with_clock (fun _ => 1700000000000) studio.

Definition first_audio : Buffer := [Byte.x41; Byte.x41; Byte.x41].

Definition second_audio : Buffer := [Byte.x42; Byte.x42; Byte.x42].

(** The first job writes its audio, the second job writes its audio, the
    first job runs to its end, then the second does. *)
Definition overlap : list bool :=
  repeat true 3 ++ repeat false 3 ++ repeat true 7 ++ repeat false 8.

(** An encoder that ends without error and without writing anything, a
    screenshot command that does the same, and an analyser that removes
    the file it was given. *)
Definition idle_encoder (cmd : FfmpegCommand) (w : World) : Outcome unit :=
  Fulfilled tt w.

Definition idle_screenshots (input : string) (opts : ScreenshotOptions)
    (w : World) : Outcome unit :=
  Fulfilled tt w.


Definition with_screenshots
    (shoot : string -> ScreenshotOptions -> World -> Outcome unit)
    (env : Env) : Env :=
  {| tmpdir := tmpdir env; clock := clock env;
     audioProcessor := audioProcessor env; visualizer := visualizer env;
     ffmpeg_run := ffmpeg_run env;
     ffmpeg_screenshots := shoot |}.


(** * The user routes: an in-memory store

    [route.js] keeps the users in a module-level array and exports the
    handlers and helpers below. The array is threaded through: every
    function takes the current array and those that assign to it return
    the new one. [uuidv4()] and [new Date().toISOString()] are arguments,
    and so is the parsed request body. *)

Module Route.

(** JavaScript values: primitives by value, objects by reference. Numbers
    are integers here. *)
Inductive JsVal : Type :=
| JUndefined
| JNull
| JBool (b : bool)
| JNum (n : Z)
| JStr (s : string)
| JRef (addr : nat).

#[global] Instance JsVal_eq_dec : EqDecision JsVal.
Proof. solve_decision. Defined.

(** An object: property name to value. *)
Abbreviation Obj := (gmap string JsVal).

(** [o.k]: a missing property reads as [undefined]. *)
Definition get (o : Obj) (k : string) : JsVal := default JUndefined (o !! k).

(** [a === b] *)
Definition strict_eq (a b : JsVal) : bool := bool_decide (a = b).

Definition truthy (v : JsVal) : bool :=
  match v with
  | JUndefined | JNull => false
  | JBool b => b
  | JNum n => negb (n =? 0)
  | JStr s => negb (String.eqb s "")
  | JRef _ => true
  end.

(** [a || b] *)
Definition or_else (a b : JsVal) : JsVal := if truthy a then a else b.

(** [{ ...a, ...b }]: the properties of [b] win. *)
Definition spread (a b : Obj) : Obj := b ∪ a.

(** [l.findIndex(f)]: the first index at which [f] holds, or -1. *)
Fixpoint findIndex {A : Type} (f : A -> bool) (l : list A) : Z :=
  match l with
  | [] => -1
  | x :: rest =>
      if f x then 0
      else let i := findIndex f rest in if i =? -1 then -1 else i + 1
  end.

Definition has_id (userId : JsVal) (user : Obj) : bool :=
  strict_eq (get user "id") userId.

(** The initial [let users = []]. *)
Definition no_users : list Obj := [].

Definition GET (users : list Obj) : list Obj := users.

(** Returns the user put in the response and the array after the push. *)
Definition POST (uuid now : string) (data : Obj) (users : list Obj)
  : Obj * list Obj :=
  let newUser : Obj :=
    {[ "id" := JStr uuid;
       "email" := get data "email";
       "name" := get data "name";
       "created_at" := JStr now;
       "youtube_credentials" := or_else (get data "youtube_credentials") JNull;
       "settings" := or_else (get data "settings") JNull ]} in
  (newUser, (users ++ [newUser])%list).

(** [None] is [undefined]. *)
Definition getUserById (userId : JsVal) (users : list Obj) : option Obj :=
  List.find (has_id userId) users.

(** [None] is [null]. The index comes from [findIndex], so the element is
    there. *)
Definition updateUser (userId : JsVal) (userData : Obj) (users : list Obj)
  : option Obj * list Obj :=
  let index := findIndex (has_id userId) users in
  if negb (index =? -1) then
    let merged := spread (default ∅ (users !! Z.to_nat index)) userData in
    (Some merged, <[Z.to_nat index := merged]> users)
  else (None, users).

Definition deleteUser (userId : JsVal) (users : list Obj)
  : option Obj * list Obj :=
  let index := findIndex (has_id userId) users in
  if negb (index =? -1) then
    let deletedUser := users !! Z.to_nat index in
    (deletedUser, List.filter (fun user => negb (has_id userId user)) users)
  else (None, users).

(** Three users, two of them under the same id. *)
Definition ann : Obj := {[ "id" := JStr "u1"; "name" := JStr "Ann" ]}.
Definition bob : Obj := {[ "id" := JStr "u2"; "name" := JStr "Bob" ]}.
Definition ann_again : Obj := {[ "id" := JStr "u1"; "name" := JStr "Ann B" ]}.
Definition registry : list Obj := [ann; bob; ann_again].

End Route.

(** * Object storage: uploading and listing

    The storage module wraps an S3 client. The client is an argument:
    [send] answers a command with its response or with the error it
    rejects with. [BUCKET_NAME] and the value of [uuidv4()] are arguments
    too. Each function returns its result object and what it logged. *)

Module Storage.

(** An entry of [response.Contents]. *)
Record S3Item : Type := mkItem {
  Key : string;
  Size : Z;
  LastModified : string
}.

Inductive S3Command : Type -> Type :=
| PutObjectCommand (Bucket Key : string) (Body : Buffer)
    (ContentType : string) : S3Command unit
| ListObjectsV2Command (Bucket Prefix : string)
    : S3Command (option (list S3Item)).

Definition S3Client : Type := forall X : Type, S3Command X -> X + JsError.

Record UploadResult : Type := mkUploadResult {
  up_success : bool;
  up_storagePath : option string;
  up_fileName : option string;
  up_error : option string
}.

Record FileEntry : Type := mkFileEntry {
  fe_key : string;
  fe_size : Z;
  fe_lastModified : string;
  fe_fileName : string
}.

Record ListResult : Type := mkListResult {
  ls_success : bool;
  ls_files : option (list FileEntry);
  ls_error : option string
}.

(** [STORAGE_PATHS] *)
Definition AUDIO : string := "audio".
Definition VIDEO : string := "video".
Definition THUMBNAIL : string := "thumbnail".
Definition IMAGE : string := "image".

(** [s.split('/').pop()] *)
Definition last_segment (s : string) : string := snd (split_path s).

(** [`${folder}/${userId}/`] *)
Definition list_prefix (folder userId : string) : string :=
  folder +:+ "/" +:+ userId +:+ "/".

Definition uploadFile (send : S3Client) (BUCKET_NAME uuid : string)
    (fileBuffer : Buffer) (fileName contentType folder userId : string)
  : UploadResult * list (string * JsError) :=
  let uniqueFileName := uuid +:+ "-" +:+ fileName in
  let key := folder +:+ "/" +:+ userId +:+ "/" +:+ uniqueFileName in
  match send _ (PutObjectCommand BUCKET_NAME key fileBuffer contentType) with
  | inl _ =>
      ({| up_success := true;
          up_storagePath := Some key;
          up_fileName := Some uniqueFileName;
          up_error := None |}, [])
  | inr error =>
      ({| up_success := false;
          up_storagePath := None;
          up_fileName := None;
          up_error := Some (err_message error) |},
       [("Error uploading file:", error)])
  end.

(** The callback of [response.Contents?.map(...)]. *)
Definition file_entry (item : S3Item) : FileEntry :=
  {| fe_key := Key item;
     fe_size := Size item;
     fe_lastModified := LastModified item;
     fe_fileName := last_segment (Key item) |}.

Definition listFiles (send : S3Client) (BUCKET_NAME : string)
    (folder userId : string) : ListResult * list (string * JsError) :=
  let prefix := list_prefix folder userId in
  match send _ (ListObjectsV2Command BUCKET_NAME prefix) with
  | inl Contents =>
      let files :=
        match Contents with
        | Some items => List.map file_entry items
        | None => []
        end in
      ({| ls_success := true; ls_files := Some files; ls_error := None |}, [])
  | inr error =>
      ({| ls_success := false;
          ls_files := None;
          ls_error := Some (err_message error) |},
       [("Error listing files:", error)])
  end.

Definition uploadAudioFile send BUCKET_NAME uuid fileBuffer fileName
    contentType userId :=
  uploadFile send BUCKET_NAME uuid fileBuffer fileName contentType AUDIO
    userId.

Definition uploadVideoFile send BUCKET_NAME uuid fileBuffer fileName
    contentType userId :=
  uploadFile send BUCKET_NAME uuid fileBuffer fileName contentType VIDEO
    userId.

Definition uploadThumbnail send BUCKET_NAME uuid fileBuffer fileName
    contentType userId :=
  uploadFile send BUCKET_NAME uuid fileBuffer fileName contentType THUMBNAIL
    userId.

Definition uploadCustomImage send BUCKET_NAME uuid fileBuffer fileName
    contentType userId :=
  uploadFile send BUCKET_NAME uuid fileBuffer fileName contentType IMAGE
    userId.

Definition listAudioFiles send BUCKET_NAME userId :=
  listFiles send BUCKET_NAME AUDIO userId.


Definition listThumbnails send BUCKET_NAME userId :=
  listFiles send BUCKET_NAME THUMBNAIL userId.

Definition listCustomImages send BUCKET_NAME userId :=
  listFiles send BUCKET_NAME IMAGE userId.

(** [key] starts with [prefix]. *)
Definition under (prefix key : string) : Prop :=
  exists rest, key = prefix +:+ rest.

(** A client that accepts every upload and lists nothing, and one that
    lists a fixed item. *)
Definition accepting : S3Client :=
  fun X cmd =>
    match cmd in S3Command T return T + JsError with
    | PutObjectCommand _ _ _ _ => inl tt
    | ListObjectsV2Command _ _ => inl None
    end.

Definition listing (items : list S3Item) : S3Client :=
  fun X cmd =>
    match cmd in S3Command T return T + JsError with
    | PutObjectCommand _ _ _ _ => inl tt
    | ListObjectsV2Command _ _ => inl (Some items)
    end.

End Storage.

(** ** Observing an outcome

    What a caller can read off a settled promise: a function of the value
    (or the error) and of the world it settled in. *)

Definition fulfilled_with {A B : Type} (f : A -> World -> B) (o : Outcome A)
  : option B :=
  match o with
  | Fulfilled r w => Some (f r w)
  | _ => None
  end.

Definition rejected_with {A B : Type} (f : JsError -> World -> B)
    (o : Outcome A) : option B :=
  match o with
  | Rejected e w => Some (f e w)
  | _ => None
  end.

(** * Properties *)

(** ** Running programs *)

Lemma run_bind env {A B : Type} (p : Prog A) (f : A -> Prog B) w :
  run env (bind p f) w =
  match run env p w with
  | Fulfilled a w' => run env (f a) w'
  | Rejected e w' => Rejected e w'
  | Pending w' => Pending w'
  end.
Proof.
  revert w.
  induction p as [a | e | X ev k IHk h IHh]; intros w; simpl; try reflexivity.
  destruct (handle env ev w); auto.
Qed.

Lemma run_try_catch env {A : Type} (body : Prog A) handler w :
  run env (try_catch body handler) w =
  match run env body w with
  | Fulfilled a w' => Fulfilled a w'
  | Rejected e w' => run env (handler e) w'
  | Pending w' => Pending w'
  end.
Proof.
  revert w.
  induction body as [a | e | X ev k IHk h IHh]; intros w; simpl;
    try reflexivity.
  destruct (handle env ev w); auto.
Qed.

(** A sequential run is the iteration of [step]. *)
Lemma run_step env {A : Type} (p : Prog A) w :
  run env p w =
  match p with
  | Vis ev _ _ =>
      match handle env ev w with
      | Pending w' => Pending w'
      | _ => run env (fst (step env p w)) (snd (step env p w))
      end
  | _ => run env p w
  end.
Proof.
  destruct p as [a | e | X ev k h]; simpl; try reflexivity.
  destruct (handle env ev w); reflexivity.
Qed.

Lemma fulfilled_with_inv {A B : Type} (f : A -> World -> B) (o : Outcome A)
    (b : B) :
  fulfilled_with f o = Some b -> exists r w, o = Fulfilled r w /\ f r w = b.
Proof.
  destruct o as [r w | e w | w]; simpl; intros [= <-]. now exists r, w.
Qed.

Lemma rejected_with_inv {A B : Type} (f : JsError -> World -> B)
    (o : Outcome A) (b : B) :
  rejected_with f o = Some b -> exists e w, o = Rejected e w /\ f e w = b.
Proof.
  destruct o as [r w | e w | w]; simpl; intros [= <-]. now exists e, w.
Qed.

Lemma pair_fst_inv {A B : Type} (x : A * B) (a : A) :
  fst x = a -> exists b, x = (a, b).
Proof. destruct x as [a' b]. simpl. intros ->. now exists b. Qed.



Lemma run_returns_only env {A : Type} (Q : A -> Prop) (p : Prog A) :
  returns_only Q p ->
  forall w r w', run env p w = Fulfilled r w' -> Q r.
Proof.
  induction p as [a | e | X ev k IHk h IHh]; simpl; intros Hq w r w' Hrun.
  - congruence.
  - discriminate.
  - destruct Hq as [Hk Hh].
    destruct (handle env ev w); [eapply IHk | eapply IHh | discriminate];
      eauto.
Qed.


(** ** The shape of the returned objects *)

Ltac shape_leaf :=
  cbn;
  first
    [ left; repeat split; first [reflexivity | eexists; reflexivity]
    | right; repeat split; first [reflexivity | eexists; reflexivity] ].


Lemma generateVideo_shape audioBuffer audioAnalysis imageFiles effects title :
  returns_only gv_shape
    (generateVideo audioBuffer audioAnalysis imageFiles effects title).
Proof.
  unfold generateVideo, generateVideo_try, gv_shape.
  cbn [returns_only try_catch bind await].
  repeat (split || intro); shape_leaf.
Qed.

Lemma createThumbnail_shape videoBuffer :
  returns_only th_shape (createThumbnail videoBuffer).
Proof.
  unfold createThumbnail, createThumbnail_try, th_shape.
  cbn [returns_only try_catch bind await].
  repeat (split || intro); shape_leaf.
Qed.


Lemma studio_visualizer_accepts analysis images (effects : Effects) title dir
    w :
  dom effects ⊆ supported_effects ->
  studio_visualizer analysis images effects title dir w =
  Fulfilled (path_join dir ("visualizer-" +:+ title +:+ ".mp4"))
    (with_files
       (<[path_join dir ("visualizer-" +:+ title +:+ ".mp4") :=
            studio_video]> (files w)) w).
Proof.
  intros Hsub. unfold studio_visualizer.
  destruct (decide (dom effects ⊆ supported_effects)); [reflexivity |].
  contradiction.
Qed.

Lemma studio_visualizer_rejects analysis images (effects : Effects) title dir
    w :
  ~ dom effects ⊆ supported_effects ->
  studio_visualizer analysis images effects title dir w =
  Rejected (mkError "ConfigurationError" "unknown effect name") w.
Proof.
  intros Hsub. unfold studio_visualizer.
  destruct (decide (dom effects ⊆ supported_effects)); [| reflexivity].
  contradiction.
Qed.


Lemma no_effect_is_supported : dom (∅ : Effects) ⊆ supported_effects.
Proof. rewrite dom_empty_L. apply empty_subseteq. Qed.

Lemma nonexistent_effect_is_not_supported :
  ~ dom ({[ "nonexistent_effect" := Enabled true ]} : Effects) ⊆
    supported_effects.
Proof.
  rewrite dom_singleton_L. intros Hsub.
  assert (Hin : "nonexistent_effect" ∈ supported_effects)
    by (apply Hsub; now apply elem_of_singleton).
  unfold supported_effects in Hin.
  rewrite !elem_of_union, !elem_of_singleton in Hin.
  destruct Hin as [[[Hin | Hin] | Hin] | Hin]; discriminate.
Qed.


(** ** generateEnhancedThumbnail *)

(** C9: for every thumbnail buffer, title and effects argument,
    [generateEnhancedThumbnail] succeeds and returns a buffer equal, byte
    for byte, to the one it was given; it touches neither the files nor the
    console. *)
Theorem generateEnhancedThumbnail_passthrough env thumbnailBuffer title
    effects w :
  run env (generateEnhancedThumbnail thumbnailBuffer title effects) w =
  Fulfilled
    {| th_success := true;
       th_thumbnailBuffer := Some thumbnailBuffer;
       th_error := None |} w.
Proof. reflexivity. Qed.

(** ** Errors are returned, never raised *)



(** ** Paths *)

Lemma append_inv_head (d s1 s2 : string) : d +:+ s1 = d +:+ s2 -> s1 = s2.
Proof.
  induction d as [| c d IH]; simpl; intros H; [exact H |].
  injection H as H. auto.
Qed.

Lemma no_separator_cons c s :
  c <> "/"%char -> no_separator s -> no_separator (String c s).
Proof.
  unfold no_separator. intros Hc Hs. simpl. rewrite Hs.
  destruct (Ascii.eqb_spec c "/"%char); [contradiction | reflexivity].
Qed.







Lemma audio_path_not_output_path env w w' :
  audio_path env w <> output_path env w'.
Proof.
  unfold audio_path, output_path, path_join. intros H.
  apply append_inv_head in H. discriminate.
Qed.


(** ** The three pipelines, step by step *)


Lemma generateVideo_try_run env audioBuffer audioAnalysis imageFiles effects
    title w :
  run env
    (generateVideo_try audioBuffer audioAnalysis imageFiles effects title) w =
  match
    visualizer env audioAnalysis imageFiles effects title (tmpdir env)
      (staged (audio_path env w) audioBuffer 2 w)
  with
  | Fulfilled visualizerPath w2 =>
      match
        ffmpeg_run env
          (encode_command visualizerPath (audio_path env w)
             (output_path env w)) w2
      with
      | Fulfilled _ w3 =>
          run env
            (generateVideo_collect (audio_path env w) visualizerPath
               (output_path env w)) w3
      | Rejected e w3 => Rejected e w3
      | Pending w3 => Pending w3
      end
  | Rejected e w2 => Rejected e w2
  | Pending w2 => Pending w2
  end.
Proof.
  unfold generateVideo_try, generateVideo_collect, audio_path, output_path,
    staged.
  cbn [run bind await handle with_files with_tick files ticks console].
  destruct (visualizer env _ _ _ _ _ _) as [vp w2 | e w2 | w2];
    try reflexivity.
Qed.

Lemma createThumbnail_try_run env videoBuffer w :
  run env (createThumbnail_try videoBuffer) w =
  match
    ffmpeg_screenshots env (video_path env w)
      (screenshot_options (thumbnail_path env w))
      (staged (video_path env w) videoBuffer 2 w)
  with
  | Fulfilled _ w2 =>
      run env
        (createThumbnail_collect (video_path env w) (thumbnail_path env w)) w2
  | Rejected e w2 => Rejected e w2
  | Pending w2 => Pending w2
  end.
Proof.
  unfold createThumbnail_try, createThumbnail_collect, video_path,
    thumbnail_path, staged.
  cbn [run bind await handle with_files with_tick files ticks console].
  reflexivity.
Qed.

Lemma generateVideo_collect_run env audioPath visualizerPath outputPath w
    muxed audio video :
  files w !! outputPath = Some muxed ->
  files w !! audioPath = Some audio ->
  files w !! visualizerPath = Some video ->
  audioPath <> visualizerPath -> audioPath <> outputPath ->
  visualizerPath <> outputPath ->
  run env (generateVideo_collect audioPath visualizerPath outputPath) w =
  Fulfilled
    {| gv_success := true; gv_videoBuffer := Some muxed; gv_error := None |}
    (with_files
       (delete outputPath (delete visualizerPath (delete audioPath (files w))))
       w).
Proof.
  intros Hout Haudio Hvideo Hav Hao Hvo.
  unfold generateVideo_collect.
  cbn [run bind await handle with_files with_tick files ticks console].
  rewrite Hout. cbn [run]. rewrite Haudio.
  cbn [run with_files files].
  rewrite lookup_delete_ne, Hvideo by assumption.
  cbn [run with_files files].
  rewrite !lookup_delete_ne, Hout by assumption.
  reflexivity.
Qed.


(** ** What the caller sees of a failure *)

(** C8, as stated, fails: the returned object does not determine the kind
    of the error that made the stage fail. A rendering failure of kind
    [ConfigurationError] and an encoding failure of kind [EncodingError]
    with the same message give the same object. *)
Lemma error_kind_is_not_returned :
  ~ (exists kind_of : GenerateVideoResult -> string,
       forall env audioBuffer audioAnalysis imageFiles effects title w e w1
              r w',
         run env
           (generateVideo_try audioBuffer audioAnalysis imageFiles effects
              title) w = Rejected e w1 ->
         run env
           (generateVideo audioBuffer audioAnalysis imageFiles effects title)
           w = Fulfilled r w' ->
         kind_of r = err_name e).
Proof.
  intros [kind_of Hkind].
  destruct (rejected_with_inv (fun e _ => e)
              (run
                 (with_visualizer
                    (crashing_visualizer
                       (mkError "ConfigurationError" "failed")) studio)
                 (generateVideo_try studio_audio studio_analysis [] ∅ "demo")
                 fresh)
              (mkError "ConfigurationError" "failed"))
    as (e1 & w1 & Htry1 & ->); [vm_compute; reflexivity |].
  destruct (fulfilled_with_inv (fun r _ => r)
              (run
                 (with_visualizer
                    (crashing_visualizer
                       (mkError "ConfigurationError" "failed")) studio)
                 (generateVideo studio_audio studio_analysis [] ∅ "demo")
                 fresh)
              {| gv_success := false;
                 gv_videoBuffer := None;
                 gv_error := Some "failed" |})
    as (r1 & w1' & Hrun1 & ->); [vm_compute; reflexivity |].
  destruct (rejected_with_inv (fun e _ => e)
              (run
                 (with_encoder
                    (crashing_encoder (mkError "EncodingError" "failed"))
                    studio)
                 (generateVideo_try studio_audio studio_analysis [] ∅ "demo")
                 fresh)
              (mkError "EncodingError" "failed"))
    as (e2 & w2 & Htry2 & ->); [vm_compute; reflexivity |].
  destruct (fulfilled_with_inv (fun r _ => r)
              (run
                 (with_encoder
                    (crashing_encoder (mkError "EncodingError" "failed"))
                    studio)
                 (generateVideo studio_audio studio_analysis [] ∅ "demo")
                 fresh)
              {| gv_success := false;
                 gv_videoBuffer := None;
                 gv_error := Some "failed" |})
    as (r2 & w2' & Hrun2 & ->); [vm_compute; reflexivity |].
  pose proof (Hkind _ _ _ _ _ _ _ _ _ _ _ Htry1 Hrun1) as Hrender.
  pose proof (Hkind _ _ _ _ _ _ _ _ _ _ _ Htry2 Hrun2) as Hencode.
  simpl in Hrender, Hencode.
  rewrite Hrender in Hencode. discriminate.
Qed.

(** C8, amended: whenever a stage fails, with whatever error [e], the
    caller receives [success: false] together with the message of [e] and
    nothing of its kind; and an object with [success: false] holds no
    [videoBuffer], respectively no [thumbnailBuffer]. *)
Theorem failure_returns_message_without_buffer env w :
  (forall audioBuffer e w1,
     run env (processAudio_try audioBuffer) w = Rejected e w1 ->
     run env (processAudio audioBuffer) w =
     Fulfilled
       {| pa_success := false;
          pa_bpm := None; pa_beats := None;
          pa_duration := None; pa_waveform := None;
          pa_error := Some (err_message e) |}
       (with_log "Error processing audio:" e w1)) /\
  (forall audioBuffer audioAnalysis imageFiles effects title e w1,
     run env
       (generateVideo_try audioBuffer audioAnalysis imageFiles effects title)
       w = Rejected e w1 ->
     run env
       (generateVideo audioBuffer audioAnalysis imageFiles effects title) w =
     Fulfilled
       {| gv_success := false;
          gv_videoBuffer := None;
          gv_error := Some (err_message e) |}
       (with_log "Error generating video:" e w1)) /\
  (forall videoBuffer e w1,
     run env (createThumbnail_try videoBuffer) w = Rejected e w1 ->
     run env (createThumbnail videoBuffer) w =
     Fulfilled
       {| th_success := false;
          th_thumbnailBuffer := None;
          th_error := Some (err_message e) |}
       (with_log "Error creating thumbnail:" e w1)) /\
  (forall audioBuffer audioAnalysis imageFiles effects title r w',
     run env
       (generateVideo audioBuffer audioAnalysis imageFiles effects title) w =
     Fulfilled r w' ->
     gv_success r = false ->
     gv_videoBuffer r = None /\ is_Some (gv_error r)) /\
  (forall videoBuffer r w',
     run env (createThumbnail videoBuffer) w = Fulfilled r w' ->
     th_success r = false ->
     th_thumbnailBuffer r = None /\ is_Some (th_error r)).
Proof.
  repeat split.
  - intros ab e w1 H. unfold processAudio.
    rewrite run_try_catch, H. reflexivity.
  - intros ab an im ef ti e w1 H. unfold generateVideo.
    rewrite run_try_catch, H. reflexivity.
  - intros vb e w1 H. unfold createThumbnail.
    rewrite run_try_catch, H. reflexivity.
  - eapply run_returns_only in H; [| apply generateVideo_shape].
    destruct H as [(Ht & _) | (_ & Hb & _)]; congruence.
  - eapply run_returns_only in H; [| apply generateVideo_shape].
    destruct H as [(Ht & _) | (_ & _ & He)]; [congruence | exact He].
  - eapply run_returns_only in H; [| apply createThumbnail_shape].
    destruct H as [(Ht & _) | (_ & Hb & _)]; congruence.
  - eapply run_returns_only in H; [| apply createThumbnail_shape].
    destruct H as [(Ht & _) | (_ & _ & He)]; [congruence | exact He].
Qed.

Lemma failure_returns_message_without_buffer_witness :
  exists w1,
    run studio
      (generateVideo_try studio_audio studio_analysis []
         {[ "nonexistent_effect" := Enabled true ]} "demo") fresh =
    Rejected (mkError "ConfigurationError" "unknown effect name") w1 /\
    run studio
      (generateVideo studio_audio studio_analysis []
         {[ "nonexistent_effect" := Enabled true ]} "demo") fresh =
    Fulfilled
      {| gv_success := false;
         gv_videoBuffer := None;
         gv_error := Some "unknown effect name" |}
      (with_log "Error generating video:"
         (mkError "ConfigurationError" "unknown effect name") w1).
Proof.
  destruct (rejected_with_inv (fun e _ => e)
              (run studio
                 (generateVideo_try studio_audio studio_analysis []
                    {[ "nonexistent_effect" := Enabled true ]} "demo") fresh)
              (mkError "ConfigurationError" "unknown effect name"))
    as (e & w1 & Htry & ->); [vm_compute; reflexivity |].
  exists w1. split; [exact Htry |].
  destruct (failure_returns_message_without_buffer studio fresh)
    as (_ & Hvideo & _).
  exact (Hvideo _ _ _ _ _ _ _ Htry).
Defined.

(** ** The encoder process *)

(** C5, as stated, fails: nothing bounds the encoder. When the process
    never exits, [generateVideo] does not fail: its promise never settles. *)
Lemma encoder_is_not_bounded_by_a_timeout :
  ~ (forall env audioBuffer audioAnalysis imageFiles effects title w,
       (forall cmd w1, is_pending (ffmpeg_run env cmd w1)) ->
       exists r w',
         run env
           (generateVideo audioBuffer audioAnalysis imageFiles effects title)
           w = Fulfilled r w' /\
         gv_success r = false).
Proof.
  intros Hclaim.
  destruct (Hclaim (with_encoder stalled_encoder studio)
              studio_audio studio_analysis [] ∅ "demo" fresh)
    as (r & w' & Hrun & _).
  - intros cmd w1. exact I.
  - unfold generateVideo in Hrun.
    rewrite run_try_catch, generateVideo_try_run in Hrun.
    change (visualizer (with_encoder stalled_encoder studio))
      with studio_visualizer in Hrun.
    rewrite (studio_visualizer_accepts _ _ _ _ _ _ no_effect_is_supported)
      in Hrun.
    discriminate Hrun.
Qed.

(** C5, amended: there is no timeout. Once the visualizer has returned,
    an encoder that ends with an error makes [generateVideo] return
    [success: false] with the message of that error, which carries the
    process's diagnostic output; an encoder that never exits leaves the
    promise of [generateVideo] pending for ever. *)
Theorem encoder_error_is_returned_and_stall_is_not env audioBuffer
    audioAnalysis imageFiles effects title w visualizerPath w2 :
  visualizer env audioAnalysis imageFiles effects title (tmpdir env)
    (staged (audio_path env w) audioBuffer 2 w) =
  Fulfilled visualizerPath w2 ->
  (forall e w3,
     ffmpeg_run env
       (encode_command visualizerPath (audio_path env w) (output_path env w))
       w2 = Rejected e w3 ->
     run env
       (generateVideo audioBuffer audioAnalysis imageFiles effects title) w =
     Fulfilled
       {| gv_success := false;
          gv_videoBuffer := None;
          gv_error := Some (err_message e) |}
       (with_log "Error generating video:" e w3)) /\
  (forall w3,
     ffmpeg_run env
       (encode_command visualizerPath (audio_path env w) (output_path env w))
       w2 = Pending w3 ->
     run env
       (generateVideo audioBuffer audioAnalysis imageFiles effects title) w =
     Pending w3).
Proof.
  intros Hrender. split.
  - intros e w3 Hencode. unfold generateVideo.
    rewrite run_try_catch, generateVideo_try_run, Hrender, Hencode.
    reflexivity.
  - intros w3 Hencode. unfold generateVideo.
    rewrite run_try_catch, generateVideo_try_run, Hrender, Hencode.
    reflexivity.
Qed.

Lemma encoder_error_is_returned_and_stall_is_not_witness :
  exists w3,
    run
      (with_encoder
         (crashing_encoder
            (mkError "Error" "ffmpeg exited with code 1: Conversion failed!"))
         studio)
      (generateVideo studio_audio studio_analysis [] ∅ "demo") fresh =
    Fulfilled
      {| gv_success := false;
         gv_videoBuffer := None;
         gv_error := Some "ffmpeg exited with code 1: Conversion failed!" |}
      (with_log "Error generating video:"
         (mkError "Error" "ffmpeg exited with code 1: Conversion failed!")
         w3).
Proof.
  eexists.
  refine
    (proj1
       (encoder_error_is_returned_and_stall_is_not
          (with_encoder
             (crashing_encoder
                (mkError "Error"
                   "ffmpeg exited with code 1: Conversion failed!"))
             studio)
          studio_audio studio_analysis [] ∅ "demo" fresh
          "/tmp/visualizer-demo.mp4" _ _)
       (mkError "Error" "ffmpeg exited with code 1: Conversion failed!")
       _ _).
  - exact (studio_visualizer_accepts _ _ _ _ _ _ no_effect_is_supported).
  - reflexivity.
Defined.

(** ** Temporary files *)


(** C1, evaluated where it fails: when a step of a pipeline stage fails,
    the temporary files written so far are still in the temporary
    directory when the stage returns. An undecodable audio leaves the
    temporary audio file of [processAudio]; an unknown effect leaves the
    temporary audio file of [generateVideo]; a failing encoder leaves its
    audio file and the visualizer output; an undecodable video leaves the
    temporary video file of [createThumbnail]. *)
Theorem temp_files_left_behind_on_failure :
  (exists r w',
     run studio (processAudio []) fresh = Fulfilled r w' /\
     pa_success r = false /\
     files w' !! "/tmp/audio-1700000000000.mp3" = Some []) /\
  (exists r w',
     run studio
       (generateVideo studio_audio studio_analysis []
          {[ "nonexistent_effect" := Enabled true ]} "demo") fresh =
     Fulfilled r w' /\
     gv_success r = false /\
     files w' !! "/tmp/audio-1700000000000.mp3" = Some studio_audio) /\
  (exists r w',
     run
       (with_encoder
          (crashing_encoder
             (mkError "Error" "ffmpeg exited with code 1: Conversion failed!"))
          studio)
       (generateVideo studio_audio studio_analysis [] ∅ "demo") fresh =
     Fulfilled r w' /\
     gv_success r = false /\
     files w' !! "/tmp/audio-1700000000000.mp3" = Some studio_audio /\
     files w' !! "/tmp/visualizer-demo.mp4" = Some studio_video) /\
  (exists r w',
     run studio (createThumbnail studio_audio) fresh = Fulfilled r w' /\
     th_success r = false /\
     files w' !! "/tmp/video-1700000000000.mp4" = Some studio_audio).
Proof.
  split; [| split; [| split]].
  - destruct (fulfilled_with_inv
                (fun r w =>
                   (pa_success r, files w !! "/tmp/audio-1700000000000.mp3"))
                (run studio (processAudio []) fresh)
                (false, Some ([] : Buffer)))
      as (r & w' & Hrun & [= Hs Hf]); [vm_compute; reflexivity |].
    exists r, w'. auto.
  - destruct (fulfilled_with_inv
                (fun r w =>
                   (gv_success r, files w !! "/tmp/audio-1700000000000.mp3"))
                (run studio
                   (generateVideo studio_audio studio_analysis []
                      {[ "nonexistent_effect" := Enabled true ]} "demo")
                   fresh)
                (false, Some studio_audio))
      as (r & w' & Hrun & [= Hs Hf]); [vm_compute; reflexivity |].
    exists r, w'. auto.
  - destruct (fulfilled_with_inv
                (fun r w =>
                   (gv_success r,
                    files w !! "/tmp/audio-1700000000000.mp3",
                    files w !! "/tmp/visualizer-demo.mp4"))
                (run
                   (with_encoder
                      (crashing_encoder
                         (mkError "Error"
                            "ffmpeg exited with code 1: Conversion failed!"))
                      studio)
                   (generateVideo studio_audio studio_analysis [] ∅ "demo")
                   fresh)
                (false, Some studio_audio, Some studio_video))
      as (r & w' & Hrun & [= Hs Ha Hv]); [vm_compute; reflexivity |].
    exists r, w'. auto.
  - destruct (fulfilled_with_inv
                (fun r w =>
                   (th_success r, files w !! "/tmp/video-1700000000000.mp4"))
                (run studio (createThumbnail studio_audio) fresh)
                (false, Some studio_audio))
      as (r & w' & Hrun & [= Hs Hf]); [vm_compute; reflexivity |].
    exists r, w'. auto.
Qed.

(** C6, evaluated where it fails: two [generateVideo] jobs on distinct
    audio inputs and distinct titles, started within the same millisecond,
    write their audio to the same temporary file. Run alone, the first job
    muxes its own audio; interleaved with the second, it muxes the audio
    of the second job, and the second job fails because the first has
    unlinked the file they share. *)
Theorem concurrent_jobs_share_temp_files :
  first_audio <> second_audio /\
  (exists w',
     run same_millisecond
       (generateVideo first_audio studio_analysis [] ∅ "first") fresh =
     Fulfilled
       {| gv_success := true;
          gv_videoBuffer := Some first_audio;
          gv_error := None |} w') /\
  (exists w',
     interleave same_millisecond overlap
       (generateVideo first_audio studio_analysis [] ∅ "first")
       (generateVideo second_audio studio_analysis [] ∅ "second") fresh =
     (Ret {| gv_success := true;
             gv_videoBuffer := Some second_audio;
             gv_error := None |},
      Ret {| gv_success := false;
             gv_videoBuffer := None;
             gv_error :=
               Some "ffmpeg exited with code 1: No such file or directory" |},
      w')).
Proof.
  split; [discriminate |]. split.
  - destruct (fulfilled_with_inv (fun r _ => r)
                (run same_millisecond
                   (generateVideo first_audio studio_analysis [] ∅ "first")
                   fresh)
                {| gv_success := true;
                   gv_videoBuffer := Some first_audio;
                   gv_error := None |})
      as (r & w' & Hrun & ->); [vm_compute; reflexivity |].
    now exists w'.
  - apply pair_fst_inv. vm_compute. reflexivity.
Qed.

(** ** The audio analysis *)





(** ** Effect names *)




(** ** The muxed video *)

Lemma shortest_is_requested visualizerPath audioPath outputPath :
  "-shortest" ∈
    outputOptions (encode_command visualizerPath audioPath outputPath).
Proof. simpl. rewrite !elem_of_cons. auto. Qed.

Lemma studio_duration_take n (media : Buffer) :
  (studio_duration (take n media) ==
   Qmin (Z.of_nat n # 2) (studio_duration media))%Q.
Proof.
  unfold studio_duration. rewrite length_take.
  destruct (Nat.le_ge_cases n (length media)) as [Hle | Hle].
  - rewrite Nat.min_l by exact Hle.
    rewrite Q.min_l; [reflexivity |]. unfold Qle. simpl. lia.
  - rewrite Nat.min_r by exact Hle.
    rewrite Q.min_r; [reflexivity |]. unfold Qle. simpl. lia.
Qed.

Lemma studio_encoder_shortest_join :
  encoder_shortest_join studio_duration studio_encoder.
Proof.
  intros cmd w w' u v a video audio Hin Hopt Hv Ha Hrun.
  unfold studio_encoder in Hrun.
  rewrite Hin, Hv, Ha, bool_decide_eq_true_2 in Hrun by exact Hopt.
  injection Hrun as _ <-.
  exists (take (length video) audio). split; [reflexivity |].
  apply studio_duration_take.
Qed.

(** C2: when the encoder honours its contract, the video that
    [generateVideo] returns lasts as long as the shorter of the two streams
    it hands to the encoder, the visualizer output and the audio buffer:
    the longer one is cut, nothing is padded. *)
Theorem generateVideo_output_is_shortest env media_duration audioBuffer
    audioAnalysis imageFiles effects title w visualizerPath w2 u w3 video :
  encoder_shortest_join media_duration (ffmpeg_run env) ->
  visualizer env audioAnalysis imageFiles effects title (tmpdir env)
    (staged (audio_path env w) audioBuffer 2 w) =
  Fulfilled visualizerPath w2 ->
  files w2 !! visualizerPath = Some video ->
  files w2 !! audio_path env w = Some audioBuffer ->
  visualizerPath <> audio_path env w ->
  visualizerPath <> output_path env w ->
  ffmpeg_run env
    (encode_command visualizerPath (audio_path env w) (output_path env w))
    w2 = Fulfilled u w3 ->
  exists muxed w',
    run env
      (generateVideo audioBuffer audioAnalysis imageFiles effects title) w =
    Fulfilled
      {| gv_success := true;
         gv_videoBuffer := Some muxed;
         gv_error := None |} w' /\
    (media_duration muxed ==
     Qmin (media_duration video) (media_duration audioBuffer))%Q.
Proof.
  intros Hcontract Hrender Hvideo Haudio Hva Hvo Hencode.
  destruct (Hcontract
              (encode_command visualizerPath (audio_path env w)
                 (output_path env w))
              w2 w3 u visualizerPath (audio_path env w) video
              audioBuffer eq_refl (shortest_is_requested _ _ _)
              Hvideo Haudio Hencode)
    as (muxed & Hfiles & Hduration).
  simpl output in Hfiles.
  exists muxed. eexists. split; [| exact Hduration].
  unfold generateVideo.
  rewrite run_try_catch, generateVideo_try_run, Hrender, Hencode.
  erewrite generateVideo_collect_run; [reflexivity | | | | | |].
  - rewrite Hfiles. apply lookup_insert_eq.
  - rewrite Hfiles, lookup_insert_ne; [exact Haudio |].
    intros H. symmetry in H. revert H. apply audio_path_not_output_path.
  - rewrite Hfiles, lookup_insert_ne; [exact Hvideo |]. congruence.
  - congruence.
  - apply audio_path_not_output_path.
  - exact Hvo.
Qed.

Lemma generateVideo_output_is_shortest_witness :
  (studio_duration studio_video == 10)%Q /\
  (studio_duration studio_audio == 15 # 2)%Q /\
  exists muxed w',
    run studio (generateVideo studio_audio studio_analysis [] ∅ "demo") fresh =
    Fulfilled
      {| gv_success := true;
         gv_videoBuffer := Some muxed;
         gv_error := None |} w' /\
    (studio_duration muxed ==
     Qmin (studio_duration studio_video) (studio_duration studio_audio))%Q /\
    (studio_duration muxed == 15 # 2)%Q.
Proof.
  split; [reflexivity |]. split; [reflexivity |].
  destruct (generateVideo_output_is_shortest studio studio_duration
              studio_audio studio_analysis [] ∅ "demo" fresh
              "/tmp/visualizer-demo.mp4"
              (with_files
                 (<["/tmp/visualizer-demo.mp4" := studio_video]>
                    (files (staged (audio_path studio fresh) studio_audio 2
                              fresh)))
                 (staged (audio_path studio fresh) studio_audio 2 fresh))
              tt
              (with_files
                 (<["/tmp/video-1700000000001.mp4" := studio_audio]>
                    (<["/tmp/visualizer-demo.mp4" := studio_video]>
                       (files (staged (audio_path studio fresh) studio_audio
                                 2 fresh))))
                 (staged (audio_path studio fresh) studio_audio 2 fresh))
              studio_video studio_encoder_shortest_join)
    as (muxed & w' & Hrun & Hduration).
  - exact (studio_visualizer_accepts _ _ _ _ _ _ no_effect_is_supported).
  - vm_compute. reflexivity.
  - vm_compute. reflexivity.
  - vm_compute. discriminate.
  - vm_compute. discriminate.
  - reflexivity.
  - exists muxed, w'. split; [exact Hrun |]. split; [exact Hduration |].
    rewrite Hduration. reflexivity.
Defined.

(** ** The thumbnail *)






(** * Further properties of the video generation module *)

(** ** Temporary files on the success path *)




(** When [createThumbnail] returns [success: true], the temporary video
    file and the temporary thumbnail file are both gone. *)
Theorem createThumbnail_success_unlinks env videoBuffer w r w' :
  run env (createThumbnail videoBuffer) w = Fulfilled r w' ->
  th_success r = true ->
  files w' !! video_path env w = None /\
  files w' !! thumbnail_path env w = None.
Proof.
  unfold createThumbnail. rewrite run_try_catch, createThumbnail_try_run.
  destruct (ffmpeg_screenshots env _ _ _) as [u w2 | e w2 | w2];
    [| cbn; intros [= <- <-]; discriminate | discriminate].
  unfold createThumbnail_collect.
  cbn [run bind await handle with_files with_tick files ticks console].
  destruct (files w2 !! thumbnail_path env w) as [image |];
    [| cbn; intros [= <- <-]; discriminate].
  cbn [run]. destruct (files w2 !! video_path env w) as [video |];
    [| cbn; intros [= <- <-]; discriminate].
  cbn [run with_files files].
  destruct (delete (video_path env w) (files w2) !! thumbnail_path env w)
    as [thumb |]; [| cbn; intros [= <- <-]; discriminate].
  cbn. intros [= <- <-] _. cbn. split.
  - rewrite !lookup_delete_None. right. now left.
  - rewrite !lookup_delete_None. now left.
Qed.

Lemma createThumbnail_success_unlinks_witness :
  exists r w',
    run studio (createThumbnail studio_video) fresh = Fulfilled r w' /\
    th_success r = true /\
    files w' !! video_path studio fresh = None /\
    files w' !! thumbnail_path studio fresh = None.
Proof.
  destruct (fulfilled_with_inv (fun r _ => th_success r)
              (run studio (createThumbnail studio_video) fresh) true)
    as (r & w' & Hrun & Hok); [vm_compute; reflexivity |].
  exists r, w'. split; [exact Hrun |]. split; [exact Hok |].
  exact (createThumbnail_success_unlinks _ _ _ _ _ Hrun Hok).
Defined.

(** ** Failing fast *)

(** When [createVisualizer] rejects, [generateVideo] returns the failure
    without starting the encoder: whatever encoder is installed, the
    returned object and the final world are the same. *)
Theorem encoder_not_started_when_rendering_fails env encode audioBuffer
    audioAnalysis imageFiles effects title w e w2 :
  visualizer env audioAnalysis imageFiles effects title (tmpdir env)
    (staged (audio_path env w) audioBuffer 2 w) = Rejected e w2 ->
  run (with_encoder encode env)
    (generateVideo audioBuffer audioAnalysis imageFiles effects title) w =
  Fulfilled
    {| gv_success := false;
       gv_videoBuffer := None;
       gv_error := Some (err_message e) |}
    (with_log "Error generating video:" e w2).
Proof.
  intros Hrender. unfold generateVideo.
  rewrite run_try_catch, generateVideo_try_run.
  change (visualizer (with_encoder encode env)) with (visualizer env).
  change (tmpdir (with_encoder encode env)) with (tmpdir env).
  change (audio_path (with_encoder encode env) w) with (audio_path env w).
  rewrite Hrender. reflexivity.
Qed.

Lemma encoder_not_started_when_rendering_fails_witness :
  exists w2,
    run (with_encoder stalled_encoder studio)
      (generateVideo studio_audio studio_analysis []
         {[ "nonexistent_effect" := Enabled true ]} "demo") fresh =
    Fulfilled
      {| gv_success := false;
         gv_videoBuffer := None;
         gv_error := Some "unknown effect name" |}
      (with_log "Error generating video:"
         (mkError "ConfigurationError" "unknown effect name") w2).
Proof.
  eexists.
  apply (encoder_not_started_when_rendering_fails studio stalled_encoder
           studio_audio studio_analysis []
           {[ "nonexistent_effect" := Enabled true ]} "demo" fresh
           (mkError "ConfigurationError" "unknown effect name")).
  exact (studio_visualizer_rejects _ _ _ _ _ _
           nonexistent_effect_is_not_supported).
Defined.

(** ** An encoder that writes nothing *)

(** When the encoder ends without error but the output file is not there,
    [generateVideo] returns [success: false] with the [ENOENT] message of
    the failed read, and unlinks nothing: the world is the one the encoder
    left, plus the log entry. *)
Theorem generateVideo_missing_output env audioBuffer audioAnalysis imageFiles
    effects title w visualizerPath w2 u w3 :
  visualizer env audioAnalysis imageFiles effects title (tmpdir env)
    (staged (audio_path env w) audioBuffer 2 w) =
  Fulfilled visualizerPath w2 ->
  ffmpeg_run env
    (encode_command visualizerPath (audio_path env w) (output_path env w))
    w2 = Fulfilled u w3 ->
  files w3 !! output_path env w = None ->
  run env (generateVideo audioBuffer audioAnalysis imageFiles effects title) w =
  Fulfilled
    {| gv_success := false;
       gv_videoBuffer := None;
       gv_error :=
         Some ("ENOENT: no such file or directory, open '" +:+
               output_path env w +:+ "'") |}
    (with_log "Error generating video:" (ENOENT "open" (output_path env w))
       w3).
Proof.
  intros Hrender Hencode Hmissing. unfold generateVideo.
  rewrite run_try_catch, generateVideo_try_run, Hrender, Hencode.
  unfold generateVideo_collect.
  cbn [run bind await handle with_files with_tick files ticks console].
  rewrite Hmissing. reflexivity.
Qed.

Lemma generateVideo_missing_output_witness :
  exists w3,
    run (with_encoder idle_encoder studio)
      (generateVideo studio_audio studio_analysis [] ∅ "demo") fresh =
    Fulfilled
      {| gv_success := false;
         gv_videoBuffer := None;
         gv_error :=
           Some "ENOENT: no such file or directory, open '/tmp/video-1700000000001.mp4'" |}
      (with_log "Error generating video:"
         (ENOENT "open" "/tmp/video-1700000000001.mp4") w3) /\
    files w3 !! "/tmp/audio-1700000000000.mp3" = Some studio_audio.
Proof.
  eexists. split.
  - refine (generateVideo_missing_output (with_encoder idle_encoder studio)
              studio_audio studio_analysis [] ∅ "demo" fresh
              "/tmp/visualizer-demo.mp4" _ tt _ _ _ _).
    + exact (studio_visualizer_accepts _ _ _ _ _ _ no_effect_is_supported).
    + reflexivity.
    + vm_compute. reflexivity.
  - vm_compute. reflexivity.
Defined.

(** The same for [createThumbnail]: when the screenshot command ends
    without error but the thumbnail file is not there, the result is
    [success: false] with the [ENOENT] message of the failed read. *)
Theorem createThumbnail_missing_thumbnail env videoBuffer w u w2 :
  ffmpeg_screenshots env (video_path env w)
    (screenshot_options (thumbnail_path env w))
    (staged (video_path env w) videoBuffer 2 w) = Fulfilled u w2 ->
  files w2 !! thumbnail_path env w = None ->
  run env (createThumbnail videoBuffer) w =
  Fulfilled
    {| th_success := false;
       th_thumbnailBuffer := None;
       th_error :=
         Some ("ENOENT: no such file or directory, open '" +:+
               thumbnail_path env w +:+ "'") |}
    (with_log "Error creating thumbnail:"
       (ENOENT "open" (thumbnail_path env w)) w2).
Proof.
  intros Hshoot Hmissing. unfold createThumbnail.
  rewrite run_try_catch, createThumbnail_try_run, Hshoot.
  unfold createThumbnail_collect.
  cbn [run bind await handle with_files with_tick files ticks console].
  rewrite Hmissing. reflexivity.
Qed.

Lemma createThumbnail_missing_thumbnail_witness :
  exists w2,
    run (with_screenshots idle_screenshots studio)
      (createThumbnail studio_video) fresh =
    Fulfilled
      {| th_success := false;
         th_thumbnailBuffer := None;
         th_error :=
           Some "ENOENT: no such file or directory, open '/tmp/thumbnail-1700000000001.jpg'" |}
      (with_log "Error creating thumbnail:"
         (ENOENT "open" "/tmp/thumbnail-1700000000001.jpg") w2).
Proof.
  eexists.
  refine (createThumbnail_missing_thumbnail
            (with_screenshots idle_screenshots studio) studio_video fresh tt
            _ _ _).
  - reflexivity.
  - vm_compute. reflexivity.
Defined.

(** ** Temporary names and the clock *)

Lemma length_append (a b : string) :
  String.length (a +:+ b) = (String.length a + String.length b)%nat.
Proof. induction a as [| c a IH]; simpl; [reflexivity | now rewrite IH]. Qed.

Lemma append_inv_tail (a b t : string) : a +:+ t = b +:+ t -> a = b.
Proof.
  revert b. induction a as [| c a IH]; intros [| c' b] H.
  - reflexivity.
  - apply (f_equal String.length) in H.
    rewrite !length_append in H. simpl in H. lia.
  - apply (f_equal String.length) in H.
    rewrite !length_append in H. simpl in H. lia.
  - change (String c (a +:+ t) = String c' (b +:+ t)) in H.
    injection H as -> H. f_equal. now apply IH.
Qed.

Lemma Z_to_string_inj a b : Z_to_string a = Z_to_string b -> a = b.
Proof.
  unfold Z_to_string. intros H.
  apply DecimalZ.to_int_inj.
  assert (Hs : Some (Z.to_int a) = Some (Z.to_int b))
    by (rewrite <- !NilEmpty.isi; now rewrite H).
  now injection Hs.
Qed.

Lemma temp_name_inj dir (stem ext : string) a b :
  path_join dir (stem +:+ Z_to_string a +:+ ext) =
  path_join dir (stem +:+ Z_to_string b +:+ ext) ->
  a = b.
Proof.
  unfold path_join. intros H.
  apply append_inv_head in H.
  change ("/" +:+ ?s) with (String "/" s) in H.
  injection H as H.
  apply append_inv_head, append_inv_tail in H.
  now apply Z_to_string_inj.
Qed.

(** Two runs give their temporary files the same name exactly when they
    read the same value from the clock: the audio file of [processAudio]
    and [generateVideo], the output file of [generateVideo], the video and
    thumbnail files of [createThumbnail]. The name depends on nothing
    else. *)
Theorem temp_names_follow_the_clock env w1 w2 :
  (audio_path env w1 = audio_path env w2 <->
   clock env (ticks w1) = clock env (ticks w2)) /\
  (output_path env w1 = output_path env w2 <->
   clock env (S (ticks w1)) = clock env (S (ticks w2))) /\
  (video_path env w1 = video_path env w2 <->
   clock env (ticks w1) = clock env (ticks w2)) /\
  (thumbnail_path env w1 = thumbnail_path env w2 <->
   clock env (S (ticks w1)) = clock env (S (ticks w2))) /\
  (output_path env w1 = video_path env w2 <->
   clock env (S (ticks w1)) = clock env (ticks w2)).
Proof.
  unfold audio_path, output_path, video_path, thumbnail_path.
  repeat split; intros H;
    solve [ eapply temp_name_inj; exact H | now rewrite H ].
Qed.

(** ** What the success objects hold *)

(** The video [generateVideo] returns is, byte for byte, the content the
    encoder left at the temporary output path. *)
Theorem generateVideo_returns_output_file env audioBuffer audioAnalysis
    imageFiles effects title w visualizerPath w2 u w3 r w' :
  visualizer env audioAnalysis imageFiles effects title (tmpdir env)
    (staged (audio_path env w) audioBuffer 2 w) =
  Fulfilled visualizerPath w2 ->
  ffmpeg_run env
    (encode_command visualizerPath (audio_path env w) (output_path env w))
    w2 = Fulfilled u w3 ->
  run env (generateVideo audioBuffer audioAnalysis imageFiles effects title) w =
  Fulfilled r w' ->
  gv_success r = true ->
  gv_videoBuffer r = files w3 !! output_path env w.
Proof.
  intros Hrender Hencode. unfold generateVideo.
  rewrite run_try_catch, generateVideo_try_run, Hrender, Hencode.
  unfold generateVideo_collect.
  cbn [run bind await handle with_files with_tick files ticks console].
  destruct (files w3 !! output_path env w) as [muxed |];
    [| cbn; intros [= <- <-]; discriminate].
  cbn [run]. destruct (files w3 !! audio_path env w) as [audio |];
    [| cbn; intros [= <- <-]; discriminate].
  cbn [run with_files files].
  destruct (delete (audio_path env w) (files w3) !! visualizerPath)
    as [video |]; [| cbn; intros [= <- <-]; discriminate].
  cbn [run with_files files].
  destruct (delete visualizerPath (delete (audio_path env w) (files w3))
              !! output_path env w) as [out |];
    [| cbn; intros [= <- <-]; discriminate].
  cbn. intros [= <- <-] _. reflexivity.
Qed.

Lemma generateVideo_returns_output_file_witness :
  exists r w3,
    gv_videoBuffer r = files w3 !! output_path studio fresh /\
    gv_videoBuffer r = Some studio_audio.
Proof.
  destruct (fulfilled_with_inv (fun r _ => r)
              (run studio
                 (generateVideo studio_audio studio_analysis [] ∅ "demo")
                 fresh)
              {| gv_success := true;
                 gv_videoBuffer := Some studio_audio;
                 gv_error := None |})
    as (r & w' & Hrun & ->); [vm_compute; reflexivity |].
  exists {| gv_success := true;
            gv_videoBuffer := Some studio_audio;
            gv_error := None |}.
  eexists. split; [| reflexivity].
  refine (generateVideo_returns_output_file studio studio_audio
            studio_analysis [] ∅ "demo" fresh "/tmp/visualizer-demo.mp4"
            _ tt _ _ w' _ _ Hrun _).
  - exact (studio_visualizer_accepts _ _ _ _ _ _ no_effect_is_supported).
  - reflexivity.
  - reflexivity.
Defined.





(** ** The screenshot target *)


(** * Properties of the user routes *)

Lemma route_find_app {A : Type} (f : A -> bool) (l1 l2 : list A) :
  List.find f (l1 ++ l2) =
  match List.find f l1 with
  | Some u => Some u
  | None => List.find f l2
  end.
Proof.
  induction l1 as [| x l1 IH]; simpl; [reflexivity |].
  destruct (f x); [reflexivity | exact IH].
Qed.

Lemma route_findIndex_bound {A : Type} (f : A -> bool) (l : list A) :
  -1 <= Route.findIndex f l.
Proof.
  induction l as [| x l IH]; simpl; [lia |].
  destruct (f x); [lia |].
  destruct (Z.eqb_spec (Route.findIndex f l) (-1)); lia.
Qed.

(** [findIndex] and [find] agree: -1 exactly when nothing is found, and
    otherwise the index of the element [find] returns, which is the first
    one that matches. *)
Lemma route_findIndex_find {A : Type} (f : A -> bool) (l : list A) :
  match List.find f l with
  | Some u =>
      0 <= Route.findIndex f l /\
      l !! Z.to_nat (Route.findIndex f l) = Some u /\
      f u = true /\
      forall j v, (j < Z.to_nat (Route.findIndex f l))%nat ->
                  l !! j = Some v -> f v = false
  | None => Route.findIndex f l = -1
  end.
Proof.
  induction l as [| x l IH]; simpl; [reflexivity |].
  destruct (f x) eqn:Hx.
  - repeat split; [lia | exact Hx |]. intros j v Hj. simpl in Hj. lia.
  - destruct (List.find f l) as [u |].
    + destruct IH as (Hpos & Hlook & Hu & Hfirst).
      destruct (Z.eqb_spec (Route.findIndex f l) (-1)) as [Heq | _]; [lia |].
      replace (Z.to_nat (Route.findIndex f l + 1))
        with (S (Z.to_nat (Route.findIndex f l))) by lia.
      repeat split; [lia | exact Hlook | exact Hu |].
      intros [| j] v Hj Hv.
      * simpl in Hv. injection Hv as <-. exact Hx.
      * simpl in Hv. apply (Hfirst j v); [lia | exact Hv].
    + rewrite IH. reflexivity.
Qed.

Lemma route_filter_keeps_all {A : Type} (f : A -> bool) (l : list A) :
  List.find f l = None -> List.filter (fun x => negb (f x)) l = l.
Proof.
  induction l as [| x l IH]; simpl; [reflexivity |].
  destruct (f x); [discriminate |]. simpl. intros H. now rewrite IH.
Qed.

Lemma route_find_filter {A : Type} (f g : A -> bool) (l : list A) :
  (forall x, g x = true -> f x = false) ->
  List.find g (List.filter (fun x => negb (f x)) l) = List.find g l.
Proof.
  intros Hfg. induction l as [| x l IH]; simpl; [reflexivity |].
  destruct (f x) eqn:Hf; simpl.
  - destruct (g x) eqn:Hg; [| exact IH].
    apply Hfg in Hg. congruence.
  - destruct (g x); [reflexivity | exact IH].
Qed.

Lemma route_find_filter_out {A : Type} (f : A -> bool) (l : list A) :
  List.find f (List.filter (fun x => negb (f x)) l) = None.
Proof.
  induction l as [| x l IH]; simpl; [reflexivity |].
  destruct (f x) eqn:Hf; simpl; [exact IH |]. now rewrite Hf.
Qed.

Lemma route_find_insert_first {A : Type} (f : A -> bool) (l : list A) i m :
  (i < length l)%nat ->
  (forall j v, (j < i)%nat -> l !! j = Some v -> f v = false) ->
  f m = true ->
  List.find f (<[i := m]> l) = Some m.
Proof.
  revert i. induction l as [| x l IH]; intros i Hi Hfirst Hm; simpl in Hi.
  - lia.
  - destruct i as [| i]; simpl.
    + now rewrite Hm.
    + rewrite (Hfirst 0%nat x) by (lia || reflexivity).
      apply IH; [lia | | exact Hm].
      intros j v Hj Hv. apply (Hfirst (S j) v); [lia | exact Hv].
Qed.

Lemma route_new_user_id uuid now data users :
  Route.get (fst (Route.POST uuid now data users)) "id" = Route.JStr uuid.
Proof. reflexivity. Qed.

(** After a [POST], [getUserById] finds what it found before; the new
    user is found by the new id only when no earlier user already carries
    that id, and under no other id. *)
Theorem route_getUserById_after_POST uuid now data users userId :
  Route.getUserById userId (snd (Route.POST uuid now data users)) =
  match Route.getUserById userId users with
  | Some u => Some u
  | None =>
      if decide (userId = Route.JStr uuid)
      then Some (fst (Route.POST uuid now data users))
      else None
  end.
Proof.
  unfold Route.getUserById. cbn [Route.POST snd fst].
  rewrite route_find_app.
  destruct (List.find (Route.has_id userId) users); [reflexivity |].
  cbn [List.find]. unfold Route.has_id at 1.
  change (Route.get _ "id") with (Route.JStr uuid).
  unfold Route.strict_eq.
  destruct (decide (userId = Route.JStr uuid)) as [-> | Hne].
  - now rewrite bool_decide_eq_true_2.
  - rewrite bool_decide_eq_false_2; [reflexivity | congruence].
Qed.

(** With an id no user carries, [updateUser] and [deleteUser] return
    [null] and leave the array as it is. *)
Theorem route_unknown_id_changes_nothing userId userData users :
  Route.getUserById userId users = None ->
  Route.updateUser userId userData users = (None, users) /\
  Route.deleteUser userId users = (None, users).
Proof.
  unfold Route.getUserById, Route.updateUser, Route.deleteUser. intros Hnone.
  pose proof (route_findIndex_find (Route.has_id userId) users) as Hidx.
  rewrite Hnone in Hidx. rewrite Hidx. split; reflexivity.
Qed.

Lemma route_unknown_id_changes_nothing_witness :
  Route.updateUser (Route.JStr "u9") {[ "name" := Route.JStr "Zed" ]}
    Route.registry = (None, Route.registry) /\
  Route.deleteUser (Route.JStr "u9") Route.registry = (None, Route.registry).
Proof.
  apply (route_unknown_id_changes_nothing (Route.JStr "u9")).
  reflexivity.
Defined.

(** [updateUser] replaces the first user carrying the id, in place, by
    the merge of that user with [userData], and returns the merge: a
    property set in [userData] takes the value given there, including
    [id]; every other property keeps its value. No other position of the
    array changes and its length stays the same. *)
Theorem route_updateUser_merges userId userData users u :
  Route.getUserById userId users = Some u ->
  exists i,
    users !! i = Some u /\
    (forall j v, (j < i)%nat -> users !! j = Some v ->
                 Route.get v "id" <> userId) /\
    Route.updateUser userId userData users =
      (Some (Route.spread u userData),
       <[i := Route.spread u userData]> users) /\
    length (snd (Route.updateUser userId userData users)) = length users /\
    (forall k,
       Route.get (Route.spread u userData) k =
       match userData !! k with
       | Some v => v
       | None => Route.get u k
       end).
Proof.
  unfold Route.getUserById. intros Hfind.
  pose proof (route_findIndex_find (Route.has_id userId) users) as Hidx.
  rewrite Hfind in Hidx. destruct Hidx as (Hpos & Hlook & _ & Hfirst).
  exists (Z.to_nat (Route.findIndex (Route.has_id userId) users)).
  assert (Hupd :
    Route.updateUser userId userData users =
    (Some (Route.spread u userData),
     <[Z.to_nat (Route.findIndex (Route.has_id userId) users) :=
         Route.spread u userData]> users)).
  { unfold Route.updateUser.
    destruct (Z.eqb_spec (Route.findIndex (Route.has_id userId) users) (-1))
      as [Heq | _]; [lia |].
    cbn [negb]. rewrite Hlook. reflexivity. }
  split; [exact Hlook |]. split; [| split; [exact Hupd | split]].
  - intros j v Hj Hv Hid. specialize (Hfirst j v Hj Hv).
    unfold Route.has_id, Route.strict_eq in Hfirst.
    now rewrite bool_decide_eq_true_2 in Hfirst.
  - rewrite Hupd. cbn [snd]. apply length_insert.
  - intros k. unfold Route.get, Route.spread.
    rewrite lookup_union. destruct (userData !! k), (u !! k); reflexivity.
Qed.

Lemma route_updateUser_merges_witness :
  Route.getUserById (Route.JStr "u1") Route.registry = Some Route.ann /\
  exists i,
    Route.registry !! i = Some Route.ann /\
    Route.updateUser (Route.JStr "u1") {[ "name" := Route.JStr "Anna" ]}
      Route.registry =
    (Some (Route.spread Route.ann {[ "name" := Route.JStr "Anna" ]}),
     <[i := Route.spread Route.ann {[ "name" := Route.JStr "Anna" ]}]>
       Route.registry).
Proof.
  split; [reflexivity |].
  destruct (route_updateUser_merges (Route.JStr "u1")
              {[ "name" := Route.JStr "Anna" ]} Route.registry Route.ann)
    as (i & Hlook & _ & Hupd & _); [reflexivity |].
  exists i. split; [exact Hlook | exact Hupd].
Defined.

(** After an [updateUser] that does not set [id], [getUserById] with the
    same id returns the merged user. *)
Theorem route_getUserById_after_updateUser userId userData users u :
  Route.getUserById userId users = Some u ->
  userData !! "id" = None ->
  Route.getUserById userId (snd (Route.updateUser userId userData users)) =
  Some (Route.spread u userData).
Proof.
  unfold Route.getUserById. intros Hfind Hid.
  pose proof (route_findIndex_find (Route.has_id userId) users) as Hidx.
  rewrite Hfind in Hidx. destruct Hidx as (Hpos & Hlook & Hu & Hfirst).
  unfold Route.updateUser.
  destruct (Z.eqb_spec (Route.findIndex (Route.has_id userId) users) (-1))
    as [Heq | _]; [lia |].
  cbn [negb snd]. rewrite Hlook. cbn [default].
  apply route_find_insert_first.
  - eapply lookup_lt_Some. exact Hlook.
  - exact Hfirst.
  - unfold Route.has_id, Route.get, Route.spread in *.
    rewrite lookup_union, Hid. destruct (u !! "id"); exact Hu.
Qed.

Lemma route_getUserById_after_updateUser_witness :
  Route.getUserById (Route.JStr "u1")
    (snd (Route.updateUser (Route.JStr "u1")
            {[ "name" := Route.JStr "Anna" ]} Route.registry)) =
  Some (Route.spread Route.ann {[ "name" := Route.JStr "Anna" ]}).
Proof.
  apply (route_getUserById_after_updateUser (Route.JStr "u1")
           {[ "name" := Route.JStr "Anna" ]} Route.registry Route.ann).
  - reflexivity.
  - reflexivity.
Defined.

Lemma route_deleteUser_found userId users u :
  List.find (Route.has_id userId) users = Some u ->
  Route.deleteUser userId users =
  (Some u, List.filter (fun user => negb (Route.has_id userId user)) users).
Proof.
  intros Hfind.
  pose proof (route_findIndex_find (Route.has_id userId) users) as Hidx.
  rewrite Hfind in Hidx. destruct Hidx as (Hpos & Hlook & _ & _).
  unfold Route.deleteUser.
  destruct (Z.eqb_spec (Route.findIndex (Route.has_id userId) users) (-1))
    as [Heq | _]; [lia |].
  cbn [negb]. rewrite Hlook. reflexivity.
Qed.

(** [deleteUser] returns the first user carrying the id and removes every
    user carrying it, not only the one it returns: afterwards
    [getUserById] finds nobody under that id, and finds under any other id
    what it found before. *)
Theorem route_deleteUser_removes_every_match userId users u :
  Route.getUserById userId users = Some u ->
  Route.deleteUser userId users =
    (Some u,
     List.filter (fun user => negb (Route.has_id userId user)) users) /\
  Route.getUserById userId (snd (Route.deleteUser userId users)) = None /\
  (forall other, other <> userId ->
     Route.getUserById other (snd (Route.deleteUser userId users)) =
     Route.getUserById other users).
Proof.
  unfold Route.getUserById. intros Hfind.
  pose proof (route_deleteUser_found userId users u Hfind) as Hdel.
  rewrite Hdel. cbn [snd]. split; [reflexivity |]. split.
  - apply route_find_filter_out.
  - intros other Hother. apply route_find_filter.
    intros x Hx. unfold Route.has_id, Route.strict_eq in *.
    apply bool_decide_eq_true_1 in Hx.
    apply bool_decide_eq_false_2. congruence.
Qed.

Lemma route_deleteUser_removes_every_match_witness :
  Route.deleteUser (Route.JStr "u1") Route.registry =
  (Some Route.ann, [Route.bob]).
Proof.
  destruct (route_deleteUser_removes_every_match (Route.JStr "u1")
              Route.registry Route.ann) as (Hdel & _);
    [reflexivity |].
  rewrite Hdel. reflexivity.
Defined.

(** A [POST] followed by [deleteUser] with the new id gives back the user
    that was created and the array as it was before, provided no earlier
    user carried that id. *)
Theorem route_deleteUser_after_POST uuid now data users :
  Route.getUserById (Route.JStr uuid) users = None ->
  Route.deleteUser (Route.JStr uuid) (snd (Route.POST uuid now data users)) =
  (Some (fst (Route.POST uuid now data users)), users).
Proof.
  unfold Route.getUserById. intros Hfresh.
  assert (Hid : Route.has_id (Route.JStr uuid)
                  (fst (Route.POST uuid now data users)) = true).
  { unfold Route.has_id, Route.strict_eq.
    change (Route.get _ "id") with (Route.JStr uuid).
    now apply bool_decide_eq_true_2. }
  rewrite (route_deleteUser_found _ _ (fst (Route.POST uuid now data users))).
  - f_equal. cbn [Route.POST snd fst] in *. rewrite List.filter_app.
    rewrite route_filter_keeps_all by exact Hfresh.
    cbn [List.filter]. rewrite Hid. cbn [negb]. apply app_nil_r.
  - cbn [Route.POST snd fst] in *. rewrite route_find_app, Hfresh.
    cbn [List.find]. now rewrite Hid.
Qed.

Lemma route_deleteUser_after_POST_witness :
  Route.deleteUser (Route.JStr "u3")
    (snd (Route.POST "u3" "2025-01-01T00:00:00.000Z"
            {[ "name" := Route.JStr "Cy" ]} Route.registry)) =
  (Some (fst (Route.POST "u3" "2025-01-01T00:00:00.000Z"
                {[ "name" := Route.JStr "Cy" ]} Route.registry)),
   Route.registry).
Proof.
  apply (route_deleteUser_after_POST "u3" "2025-01-01T00:00:00.000Z"
           {[ "name" := Route.JStr "Cy" ]} Route.registry).
  reflexivity.
Defined.

(** * Properties of the object storage *)

Lemma string_append_assoc (a b c : string) :
  (a +:+ b) +:+ c = a +:+ (b +:+ c).
Proof.
  induction a as [| x a IH]; [reflexivity |].
  change (String x ((a +:+ b) +:+ c) = String x (a +:+ (b +:+ c))).
  now rewrite IH.
Qed.

Lemma split_path_none p b : split_path p = (None, b) -> b = p.
Proof.
  revert b. induction p as [| c p IH]; simpl; intros b H.
  - now injection H.
  - destruct (split_path p) as [[d |] b'] eqn:Hsplit; [discriminate |].
    destruct (Ascii.eqb c "/"%char); [discriminate |].
    injection H as <-. f_equal. now apply IH.
Qed.

Lemma no_separator_inv c s :
  no_separator (String c s) -> c <> "/"%char /\ no_separator s.
Proof.
  unfold no_separator. simpl.
  destruct (split_path s) as [[d |] b] eqn:Hsplit; [discriminate |].
  destruct (Ascii.eqb_spec c "/"%char) as [-> | Hc]; [discriminate |].
  intros H. split; [exact Hc |].
  injection H as ->. reflexivity.
Qed.

Lemma separator_cancel (a a' s s' : string) :
  no_separator a -> no_separator a' ->
  a +:+ "/" +:+ s = a' +:+ "/" +:+ s' -> a = a' /\ s = s'.
Proof.
  revert a'. induction a as [| c a IH]; intros [| c' a'] Ha Ha' H.
  - change (String "/" s = String "/" s') in H. injection H as ->. auto.
  - change (String "/" s = String c' (a' +:+ "/" +:+ s')) in H.
    injection H as <- _. apply no_separator_inv in Ha'. tauto.
  - change (String c (a +:+ "/" +:+ s) = String "/" s') in H.
    injection H as -> _. apply no_separator_inv in Ha. tauto.
  - change (String c (a +:+ "/" +:+ s) = String c' (a' +:+ "/" +:+ s')) in H.
    injection H as -> H.
    apply no_separator_inv in Ha. apply no_separator_inv in Ha'.
    destruct (IH a' (proj2 Ha) (proj2 Ha') H) as [-> ->]. auto.
Qed.

Lemma last_segment_suffix (p : string) :
  no_separator (Storage.last_segment p) /\
  exists d, p = d +:+ Storage.last_segment p.
Proof.
  unfold Storage.last_segment.
  induction p as [| c p [Hsep [d Hd]]]; simpl.
  - split; [reflexivity | now exists ""].
  - destruct (split_path p) as [[d' |] b] eqn:Hsplit; simpl in *.
    + split; [exact Hsep |]. exists (String c d).
      change (String c p = String c (d +:+ b)). now f_equal.
    + destruct (Ascii.eqb_spec c "/"%char) as [-> | Hc]; simpl.
      * split; [exact Hsep |]. exists (String "/" d).
        change (String "/" p = String "/" (d +:+ b)). now f_equal.
      * apply split_path_none in Hsplit as ->.
        split; [now apply no_separator_cons | now exists ""].
Qed.

(** Keys are kept apart by folder and user: when the folder and user ids
    contain no ['/'], the key under which [uploadFile] stored a file lies
    under the prefix that [listFiles] asks for exactly when the folder and
    the user are the same. *)
Theorem storage_key_under_own_prefix_only send bucket uuid fileBuffer
    fileName contentType folder userId folder' userId' r log :
  no_separator folder -> no_separator userId ->
  no_separator folder' -> no_separator userId' ->
  Storage.uploadFile send bucket uuid fileBuffer fileName contentType folder
    userId = (r, log) ->
  Storage.up_success r = true ->
  exists key,
    Storage.up_storagePath r = Some key /\
    (Storage.under (Storage.list_prefix folder' userId') key <->
     folder' = folder /\ userId' = userId).
Proof.
  intros Hf Hu Hf' Hu'. unfold Storage.uploadFile.
  destruct (send _ _) as [[] | e]; intros [= <- <-] Hok; [| discriminate].
  eexists. split; [reflexivity |].
  unfold Storage.under, Storage.list_prefix. split.
  - intros [rest Hkey].
    rewrite !string_append_assoc in Hkey.
    apply separator_cancel in Hkey as [-> Hkey]; [| assumption ..].
    apply separator_cancel in Hkey as [-> _]; [| assumption ..].
    auto.
  - intros [-> ->]. exists (uuid +:+ "-" +:+ fileName).
    now rewrite !string_append_assoc.
Qed.

Lemma storage_key_under_own_prefix_only_witness :
  exists key,
    Storage.up_storagePath
      (fst (Storage.uploadAudioFile Storage.accepting "youtube-automation"
              "0b7e" studio_audio "song.mp3" "audio/mpeg" "user-1")) =
    Some key /\
    (Storage.under (Storage.list_prefix Storage.VIDEO "user-1") key <->
     Storage.VIDEO = Storage.AUDIO /\ "user-1" = "user-1").
Proof.
  apply (storage_key_under_own_prefix_only Storage.accepting
           "youtube-automation" "0b7e" studio_audio "song.mp3" "audio/mpeg"
           Storage.AUDIO "user-1" Storage.VIDEO "user-1" _ []);
    reflexivity.
Defined.



(** A successful [listFiles] logs nothing and returns one entry per
    object of the response, in the same order; each entry carries the
    object's key, and its [fileName] contains no ['/'] and is the end of
    that key. A response without [Contents] gives the empty list. *)
Theorem storage_listFiles_entries (send : Storage.S3Client) bucket folder
    userId r log :
  Storage.listFiles send bucket folder userId = (r, log) ->
  Storage.ls_success r = true ->
  exists Contents files,
    send _ (Storage.ListObjectsV2Command bucket
              (Storage.list_prefix folder userId)) = inl Contents /\
    Storage.ls_files r = Some files /\
    log = [] /\
    List.map Storage.fe_key files =
      List.map Storage.Key (default [] Contents) /\
    Forall
      (fun entry =>
         no_separator (Storage.fe_fileName entry) /\
         exists d, Storage.fe_key entry = d +:+ Storage.fe_fileName entry)
      files.
Proof.
  unfold Storage.listFiles.
  destruct (send _ _) as [Contents | e]; intros [= <- <-] Hok;
    [| discriminate].
  exists Contents. eexists. split; [reflexivity |].
  split; [reflexivity |]. split; [reflexivity |].
  destruct Contents as [items |]; cbn [default]; [| split; constructor].
  split.
  - rewrite List.map_map. reflexivity.
  - apply Forall_forall. intros entry Hin.
    apply list_elem_of_In, List.in_map_iff in Hin as (item & <- & _).
    apply (last_segment_suffix (Storage.Key item)).
Qed.

Lemma storage_listFiles_entries_witness :
  exists Contents files,
    Storage.listing
      [Storage.mkItem "audio/user-1/0b7e-mix/final.mp3" 1024
         "2025-01-01T00:00:00.000Z"] _
      (Storage.ListObjectsV2Command "youtube-automation"
         (Storage.list_prefix Storage.AUDIO "user-1")) = inl Contents /\
    Storage.ls_files
      (fst (Storage.listAudioFiles
              (Storage.listing
                 [Storage.mkItem "audio/user-1/0b7e-mix/final.mp3" 1024
                    "2025-01-01T00:00:00.000Z"])
              "youtube-automation" "user-1")) = Some files /\
    List.map Storage.fe_fileName files = ["final.mp3"].
Proof.
  destruct (storage_listFiles_entries
              (Storage.listing
                 [Storage.mkItem "audio/user-1/0b7e-mix/final.mp3" 1024
                    "2025-01-01T00:00:00.000Z"])
              "youtube-automation" Storage.AUDIO "user-1" _ []
              eq_refl eq_refl)
    as (Contents & files & Hsend & Hfiles & _).
  exists Contents, files. split; [exact Hsend |]. split; [exact Hfiles |].
  cbn in Hfiles. injection Hfiles as <-. reflexivity.
Defined.
